(** * Sonar: conversation persistence, identity and API core of [sonar_app.py]

    Shallow embedding of the Streamlit application [src/sonar_app.py].
    Python strings are lists of code points; [st.session_state], the
    browser LocalStorage, the random source behind [uuid.uuid4], the remote
    chat-completion endpoint, [st.secrets] and the rendered UI are threaded
    through an explicit state-and-exception monad, so that a Python
    exception keeps every mutation made before it was raised. *)

From Stdlib Require Import ZArith Lia Ascii String.
From stdpp Require Import base list gmap strings.
From Stdlib Require Import Ascii.

Open Scope Z_scope.
Set Warnings "-register-all".

(** ** Python strings *)

(** A Python [str] is a sequence of Unicode code points. *)
Abbreviation pystr := (list N).

(** The code points of an ASCII literal of the source. *)
Fixpoint lit (s : string) : pystr :=
  match s with
  | EmptyString => []
  | String a s' => N_of_ascii a :: lit s'
  end.

(** [s.startswith(p)] *)
Definition startswith (s p : pystr) : bool :=
  bool_decide (firstn (length p) s = p).

(** ** JSON values, as [json.loads] builds them and [json.dumps] reads them *)

(** A number is kept as the text [json.dumps] writes for it. A JSON object
    is an association list with distinct keys, in insertion order. *)
Inductive json :=
| JNull
| JBool (b : bool)
| JNum (text : pystr)
| JStr (s : pystr)
| JArr (l : list json)
| JObj (kvs : list (pystr * json)).

(** Python truthiness of a decoded value ([if response:]). *)
Definition json_truthy (j : json) : bool :=
  match j with
  | JNull => false
  | JBool b => b
  | JNum t => negb (bool_decide (t = lit "0" \/ t = lit "0.0" \/ t = lit "-0.0"))
  | JStr s => negb (bool_decide (s = []))
  | JArr l => negb (bool_decide (l = []))
  | JObj kvs => negb (bool_decide (kvs = []))
  end.

(** ** Data model: messages and conversations *)

Record message := Message { role : pystr; content : json }.

Record conversation := Conversation {
  conv_id : pystr;
  conv_title : pystr;
  conv_messages : list message
}.

Definition NEW_CONVERSATION : pystr := lit "New Conversation".

(** The dictionary [{"id": i, "title": "New Conversation", "messages": []}]. *)
Definition new_conversation (i : pystr) : conversation :=
  Conversation i NEW_CONVERSATION [].

(** ** [str(uuid.uuid4())] *)

(** [uuid4] draws 128 random bits and forces the variant and version fields
    ([uuid.UUID(bytes=os.urandom(16), version=4)]). *)
Definition uuid4_int (r : Z) : Z :=
  let i := Z.land r (Z.ones 128) in
  let i := Z.land i (Z.lnot (Z.shiftl 49152 48)) in
  let i := Z.lor i (Z.shiftl 32768 48) in
  let i := Z.land i (Z.lnot (Z.shiftl 61440 64)) in
  Z.lor i (Z.shiftl 4 76).

Definition hex_digit (d : Z) : N :=
  if d <? 10 then N_of_ascii "0"%char + Z.to_N d
  else (N_of_ascii "a"%char + Z.to_N (d - 10))%N.

(** ['%032x' % int] *)
Definition hex32 (i : Z) : pystr :=
  map (fun k => hex_digit (Z.land (Z.shiftr i (4 * (31 - Z.of_nat k))) 15))
      (seq 0 32).

(** [UUID.__str__]: [hex[:8]-hex[8:12]-hex[12:16]-hex[16:20]-hex[20:]]. *)
Definition uuid_str (i : Z) : pystr :=
  let h := hex32 i in
  let dash := N_of_ascii "-"%char in
  take 8 h ++ [dash] ++ take 4 (drop 8 h) ++ [dash] ++ take 4 (drop 12 h)
    ++ [dash] ++ take 4 (drop 16 h) ++ [dash] ++ drop 20 h.

(** ** Exceptions *)

Inductive exc :=
| StopIteration
| KeyError
| IndexError
| TypeError
| AttributeError
| StoreError            (** any failure of the LocalStorage component *)
| JSONDecodeError       (** [json.loads] / [requests] [Response.json] *)
| HTTPError             (** [Response.raise_for_status] *)
| ConnectionError       (** transport failure inside [requests.post] *)
| ValueError            (** [list.index] of a missing value *)
| StreamlitSecretNotFoundError (** [st.secrets] read with no secrets file *)
| RerunException.       (** [st.experimental_rerun] / [st.rerun] *)

(** [isinstance(e, Exception)]: Streamlit's script-control exceptions
    derive from [BaseException] only. *)
Definition is_Exception (e : exc) : bool :=
  match e with RerunException => false | _ => true end.

(** [isinstance(e, requests.exceptions.RequestException)]; the decoding
    error of [Response.json] is one in current [requests]. *)
Definition is_RequestException (e : exc) : bool :=
  match e with JSONDecodeError | HTTPError | ConnectionError => true | _ => false end.

Inductive res (A : Type) := Ok (a : A) | Raise (e : exc).
Arguments Ok {A} a.
Arguments Raise {A} e.

(** ** The world: session state, LocalStorage, randomness, network, UI *)

(** The keys of [st.session_state] the core reads and writes;
    [current_conv_id] is [None] while the key is absent. *)
Record session := Session {
  user_id : pystr;
  conversations : list conversation;
  current_conv_id : option pystr;
  messages : list message;
  authenticated : bool;
  api_key : option pystr;
  instructions : pystr;
  model : pystr
}.

(** The browser LocalStorage: its contents, and for each key whether a
    read or a write of it fails inside the component. *)
Record store := Store {
  kv : gmap pystr pystr;
  read_fails : pystr -> bool;
  write_fails : pystr -> bool
}.

(** What the remote endpoint does with one POST: a transport failure, or
    a response with a status code and a body ([None]: not valid JSON). *)
Inductive http_response :=
| Transport
| Response (status : Z) (body : option json).

Record request := Request {
  req_url : pystr;
  req_authorization : pystr;
  req_payload : json
}.

Inductive ui_event :=
| UError (msg : string)
| UApiError (e : exc)           (** [st.error(f"API Error: {str(e)}")] *)
| USuccess (msg : string)
| UJson (j : json)
| UChat (who : pystr) (body : json).

Record world := World {
  ss : session;
  ls : store;
  rand : nat -> Z;             (** the random source of [uuid4] *)
  rand_pos : nat;
  net : list http_response;    (** responses to the successive POSTs *)
  posts : list request;        (** the POSTs sent, oldest first *)
  ui : list ui_event;          (** what was rendered, oldest first *)
  secrets : option (gmap pystr pystr)
    (** [st.secrets]: [None] when no secrets file is configured *)
}.

(** ** The state-and-exception monad *)

Definition M (A : Type) : Type := world -> res A * world.

Global Instance M_ret : MRet M := fun A a w => (Ok a, w).
Global Instance M_bind : MBind M := fun A B f m w =>
  match m w with
  | (Ok a, w') => f a w'
  | (Raise e, w') => (Raise e, w')
  end.

Definition raise {A} (e : exc) : M A := fun w => (Raise e, w).

(** [try: m except <class> as e: h(e)] *)
Definition try_except {A} (m : M A) (catches : exc -> bool) (h : exc -> M A) : M A :=
  fun w =>
    match m w with
    | (Raise e, w') => if catches e then h e w' else (Raise e, w')
    | r => r
    end.

Definition get_world : M world := fun w => (Ok w, w).
Definition put_world (w : world) : M unit := fun _ => (Ok tt, w).

Definition get_ss : M session := fun w => (Ok (ss w), w).

Definition modify_ss (f : session -> session) : M unit := fun w =>
  (Ok tt, World (f (ss w)) (ls w) (rand w) (rand_pos w) (net w) (posts w) (ui w) (secrets w)).

Definition modify_ls (f : store -> store) : M unit := fun w =>
  (Ok tt, World (ss w) (f (ls w)) (rand w) (rand_pos w) (net w) (posts w) (ui w) (secrets w)).

Definition emit (e : ui_event) : M unit := fun w =>
  (Ok tt, World (ss w) (ls w) (rand w) (rand_pos w) (net w) (posts w) (ui w ++ [e]) (secrets w)).

Definition set_conversations (cs : list conversation) : M unit :=
  modify_ss (fun s => Session (user_id s) cs (current_conv_id s) (messages s)
                        (authenticated s) (api_key s) (instructions s) (model s)).

Definition set_current_conv_id (i : pystr) : M unit :=
  modify_ss (fun s => Session (user_id s) (conversations s) (Some i) (messages s)
                        (authenticated s) (api_key s) (instructions s) (model s)).

Definition set_messages (ms : list message) : M unit :=
  modify_ss (fun s => Session (user_id s) (conversations s) (current_conv_id s) ms
                        (authenticated s) (api_key s) (instructions s) (model s)).

Definition set_login (k : pystr) : M unit :=
  modify_ss (fun s => Session (user_id s) (conversations s) (current_conv_id s)
                        (messages s) true (Some k) (instructions s) (model s)).

(** [st.session_state.current_conv_id]: attribute access raises when the
    key is absent. *)
Definition get_current_conv_id : M pystr :=
  s ← get_ss;
  match current_conv_id s with
  | Some i => mret i
  | None => raise AttributeError
  end.

(** [str(uuid.uuid4())] *)
Definition uuid4 : M pystr := fun w =>
  (Ok (uuid_str (uuid4_int (rand w (rand_pos w)))),
   World (ss w) (ls w) (rand w) (S (rand_pos w)) (net w) (posts w) (ui w) (secrets w)).

(** [st.experimental_rerun()] *)
Definition experimental_rerun : M unit := raise RerunException.

(** [LocalStorage.getItem] / [LocalStorage.setItem] *)
Definition getItem (k : pystr) : M (option pystr) := fun w =>
  if read_fails (ls w) k then (Raise StoreError, w) else (Ok (kv (ls w) !! k), w).

Definition setItem (k v : pystr) : M unit := fun w =>
  if write_fails (ls w) k then (Raise StoreError, w)
  else modify_ls (fun l => Store (<[k:=v]> (kv l)) (read_fails l) (write_fails l)) w.

(** [next(c for c in convs if c["id"] == st.session_state.current_conv_id)]:
    the generator reads the attribute once per element it inspects. *)
Fixpoint next_current_conv (convs : list conversation) : M conversation :=
  match convs with
  | [] => raise StopIteration
  | c :: rest =>
      cid ← get_current_conv_id;
      if bool_decide (conv_id c = cid) then mret c else next_current_conv rest
  end.

(** [c[field] = v] on the object [next(...)] returned: the first entry
    whose id is [cid]. *)
Fixpoint update_first (cid : pystr) (f : conversation -> conversation)
    (convs : list conversation) : list conversation :=
  match convs with
  | [] => []
  | c :: rest =>
      if bool_decide (conv_id c = cid) then f c :: rest
      else c :: update_first cid f rest
  end.

(** ** [ensure_current_conversation] (lines 79-95) *)

Definition ensure_current_conversation : M unit :=
  s ← get_ss;
  (match current_conv_id s with
   | None =>
       match conversations s with
       | c :: _ => set_current_conv_id (conv_id c)
       | [] =>
           new_conv_id ← uuid4;
           set_conversations [new_conversation new_conv_id];;
           set_current_conv_id new_conv_id
       end
   | Some _ => mret tt
   end);;
  s ← get_ss;
  current_conv ← next_current_conv (conversations s);
  set_messages (conv_messages current_conv).

(** ** [json.dumps] with its defaults ([ensure_ascii=True], separators
    [", "] and [": "]) *)

Definition hex4 (n : Z) : pystr :=
  map (fun k => hex_digit (Z.land (Z.shiftr n (4 * (3 - Z.of_nat k))) 15)) (seq 0 4).

Definition backslash : N := N_of_ascii "\"%char.
Definition dquote : N := 34%N.

(** [py_encode_basestring_ascii], one code point at a time. *)
Definition escape_char (c : N) : pystr :=
  if bool_decide (c = dquote) then [backslash; c]
  else if bool_decide (c = backslash) then [backslash; backslash]
  else if bool_decide (c = 8%N) then lit "\b"
  else if bool_decide (c = 12%N) then lit "\f"
  else if bool_decide (c = 10%N) then lit "\n"
  else if bool_decide (c = 13%N) then lit "\r"
  else if bool_decide (c = 9%N) then lit "\t"
  else if bool_decide (32 <= c <= 126)%N then [c]
  else if bool_decide (c < 65536)%N then lit "\u" ++ hex4 (Z.of_N c)
  else
    let n := Z.of_N c - 65536 in
    lit "\u" ++ hex4 (Z.lor 55296 (Z.land (Z.shiftr n 10) 1023))
      ++ lit "\u" ++ hex4 (Z.lor 56320 (Z.land n 1023)).

Definition dumps_str (s : pystr) : pystr :=
  [dquote] ++ concat (map escape_char s) ++ [dquote].

Definition join (sep : pystr) (xs : list pystr) : pystr :=
  match xs with
  | [] => []
  | x :: rest => x ++ concat (map (fun y => sep ++ y) rest)
  end.

Fixpoint json_dumps (j : json) : pystr :=
  match j with
  | JNull => lit "null"
  | JBool true => lit "true"
  | JBool false => lit "false"
  | JNum t => t
  | JStr s => dumps_str s
  | JArr l => lit "[" ++ join (lit ", ") (map json_dumps l) ++ lit "]"
  | JObj kvs =>
      lit "{" ++ join (lit ", ")
        (map (fun kv => dumps_str kv.1 ++ lit ": " ++ json_dumps kv.2) kvs)
      ++ lit "}"
  end.

(** The dictionaries the application stores. *)
Definition message_json (m : message) : json :=
  JObj [(lit "role", JStr (role m)); (lit "content", content m)].

Definition conversation_json (c : conversation) : json :=
  JObj [(lit "id", JStr (conv_id c)); (lit "title", JStr (conv_title c));
        (lit "messages", JArr (map message_json (conv_messages c)))].

(** ** Conversation persistence (lines 54-76) *)

(** [CONVERSATIONS_KEY_TEMPLATE.format(user_id=user_id)] *)
Definition conversations_key (uid : pystr) : pystr := lit "conversations_" ++ uid.

(** [load_conversations]; [json_loads] is the library decoder, [None]
    where it raises. *)
Definition load_conversations (json_loads : pystr -> option json) (uid : pystr) : M json :=
  try_except
    (raw ← getItem (conversations_key uid);
     match raw with
     | Some r =>
         if bool_decide (r = []) then mret (JArr [])
         else match json_loads r with
              | Some v => mret v
              | None => raise JSONDecodeError
              end
     | None => mret (JArr [])
     end)
    is_Exception (fun _ => mret (JArr [])).

Definition save_conversations (uid : pystr) (convs : list conversation) : M unit :=
  try_except
    (setItem (conversations_key uid) (json_dumps (JArr (map conversation_json convs))))
    is_Exception (fun _ => mret tt).

(** ** [get_persistent_user_id] (lines 100-108) *)

Definition USER_ID_KEY : pystr := lit "user_id".

Definition get_persistent_user_id : M pystr :=
  try_except
    (stored ← getItem USER_ID_KEY;
     match stored with
     | Some u => if bool_decide (u = []) then
                   (u' ← uuid4; setItem USER_ID_KEY u';; mret u')
                 else mret u
     | None => u' ← uuid4; setItem USER_ID_KEY u';; mret u'
     end)
    is_Exception (fun _ => uuid4).

(** ** [call_perplexity_api] (lines 142-166) *)

Definition API_URL : pystr := lit "https://api.perplexity.ai/chat/completions".

Definition api_payload (msgs : list message) (mdl : pystr) : json :=
  JObj [(lit "model", JStr mdl);
        (lit "messages", JArr (map message_json msgs));
        (lit "max_tokens", JNum (lit "4000"));
        (lit "temperature", JNum (lit "0.2"));
        (lit "top_p", JNum (lit "0.9"));
        (lit "stream", JBool false)].

(** [f"Bearer {api_key}"]; [None] formats as ["None"]. *)
Definition bearer (k : option pystr) : pystr :=
  lit "Bearer " ++ match k with Some k => k | None => lit "None" end.

(** [requests.post(url, json=payload, headers=headers)]: the request is
    sent, then the endpoint answers with the next response of [net]. *)
Definition requests_post (url auth : pystr) (payload : json) : M (Z * option json) :=
  fun w =>
    let w' := World (ss w) (ls w) (rand w) (rand_pos w) (drop 1 (net w))
                    (posts w ++ [Request url auth payload]) (ui w) (secrets w) in
    match net w with
    | Response st body :: _ => (Ok (st, body), w')
    | _ => (Raise ConnectionError, w')
    end.

(** [response.json()] *)
Definition response_json (body : option json) : M json :=
  match body with Some j => mret j | None => raise JSONDecodeError end.

(** [response.raise_for_status()] *)
Definition raise_for_status (status : Z) : M unit :=
  if (400 <=? status) && (status <? 600) then raise HTTPError else mret tt.

(** [j[k]] for a string key. *)
Definition getitem_key (j : json) (k : pystr) : M json :=
  match j with
  | JObj kvs =>
      match list_find (fun kv => kv.1 = k) kvs with
      | Some (_, kv) => mret kv.2
      | None => raise KeyError
      end
  | _ => raise TypeError
  end.

(** [j[0]] *)
Definition getitem_0 (j : json) : M json :=
  match j with
  | JArr (x :: _) => mret x
  | JArr [] => raise IndexError
  | JStr (c :: _) => mret (JStr [c])
  | JStr [] => raise IndexError
  | JObj _ => raise KeyError
  | _ => raise TypeError
  end.

(** The body of the [try] once [requests.post] has returned. *)
Definition handle_response (status : Z) (body : option json) : M (option json) :=
  if bool_decide (status = 400) then
    emit (UError "❌ Bad request: The API payload may be malformed. Check formatting and field names.");;
    j ← response_json body;
    emit (UJson j);;
    mret None
  else
    raise_for_status status;;
    j ← response_json body;
    j ← getitem_key j (lit "choices");
    j ← getitem_0 j;
    j ← getitem_key j (lit "message");
    j ← getitem_key j (lit "content");
    mret (Some j).

Definition call_perplexity_api (msgs : list message) (mdl : pystr) (key : option pystr)
    : M (option json) :=
  let payload := api_payload msgs mdl in
  try_except
    (r ← requests_post API_URL (bearer key) payload;
     handle_response r.1 r.2)
    is_RequestException (fun e => emit (UApiError e);; mret None).

(** ** [display_chat] (lines 221-263) *)

Fixpoint render_messages (ms : list message) : M unit :=
  match ms with
  | [] => mret tt
  | m :: rest => emit (UChat (role m) (content m));; render_messages rest
  end.

Definition set_title (t : pystr) (c : conversation) : conversation :=
  Conversation (conv_id c) t (conv_messages c).

Definition set_conv_messages (ms : list message) (c : conversation) : conversation :=
  Conversation (conv_id c) (conv_title c) ms.

(** [current_conv["title"] in ("New Conversation", <empty str>)] *)
Definition is_placeholder_title (t : pystr) : bool :=
  bool_decide (t = NEW_CONVERSATION \/ t = []).

(** Lines 253-263 of the body of [if user_input := ...]; [cid] is the id of
    the [current_conv] object. *)
Definition finish_send (cid : pystr) (response : option json) : M unit :=
  (match response with
   | Some r =>
       if json_truthy r then
         s ← get_ss;
         set_messages (messages s ++ [Message (lit "assistant") r]);;
         emit (UChat (lit "assistant") r)
       else emit (UError "❌ Failed to get response from Perplexity API")
   | None => emit (UError "❌ Failed to get response from Perplexity API")
   end);;
  s ← get_ss;
  set_conversations (update_first cid (set_conv_messages (messages s)) (conversations s));;
  s ← get_ss;
  save_conversations (user_id s) (conversations s).

(** The body of [if user_input := st.chat_input(...)]. *)
Definition send_user_message (user_input : pystr) : M unit :=
  s ← get_ss;
  set_messages (messages s ++ [Message (lit "user") (JStr user_input)]);;
  s ← get_ss;
  current_conv ← next_current_conv (conversations s);
  (if is_placeholder_title (conv_title current_conv) then
     set_conversations (update_first (conv_id current_conv)
                          (set_title (take 50 user_input)) (conversations s))
   else mret tt);;
  s ← get_ss;
  let api_messages := Message (lit "system") (JStr (instructions s)) :: messages s in
  emit (UChat (lit "user") (JStr user_input));;
  response ← call_perplexity_api api_messages (model s) (api_key s);
  finish_send (conv_id current_conv) response.

(** [user_input] is what [st.chat_input] returned in this run. *)
Definition display_chat (user_input : option pystr) : M unit :=
  s ← get_ss;
  render_messages (messages s);;
  match user_input with
  | Some u => if bool_decide (u = []) then mret tt else send_user_message u
  | None => mret tt
  end.

(** ** The delete button of [sidebar_conversation_selector] (lines 204-217) *)

(** [[c for c in convs if c["id"] != st.session_state.current_conv_id]] *)
Fixpoint drop_current (convs : list conversation) : M (list conversation) :=
  match convs with
  | [] => mret []
  | c :: rest =>
      cid ← get_current_conv_id;
      rest' ← drop_current rest;
      mret (if bool_decide (conv_id c <> cid) then c :: rest' else rest')
  end.

Definition delete_current_conversation : M unit :=
  s ← get_ss;
  kept ← drop_current (conversations s);
  set_conversations kept;;
  (match kept with
   | c :: _ => set_current_conv_id (conv_id c);; set_messages (conv_messages c)
   | [] =>
       new_id ← uuid4;
       set_conversations [new_conversation new_id];;
       set_current_conv_id new_id;;
       set_messages []
   end);;
  s ← get_ss;
  save_conversations (user_id s) (conversations s);;
  experimental_rerun.

(** ** The login button of [main] (lines 352-364) *)

Definition login (key_input : pystr) : M unit :=
  if negb (bool_decide (key_input = [])) && startswith key_input (lit "pplx-") then
    set_login key_input;;
    emit (USuccess "✅ Logged in with API key");;
    experimental_rerun
  else
    w ← get_world;
    match secrets w with
    | None =>
        (** [st.secrets.get] parses the secrets file first; with none it
            renders its "No secrets found" error (not modelled) and raises. *)
        raise StreamlitSecretNotFoundError
    | Some sc =>
        if bool_decide (sc !! lit "PASSWORD" = Some key_input) then
          match sc !! lit "PERPLEXITY_API_KEY" with
          | Some k =>
              set_login k;;
              emit (USuccess "✅ Logged in with default key");;
              experimental_rerun
          | None => raise KeyError
          end
        else emit (UError "❌ Invalid key or password")
    end.

(** ** Lists as Python indexes them *)

(** [lst.index(x)], [None] where it raises [ValueError]. *)
Fixpoint index_of (x : pystr) (l : list pystr) : option nat :=
  match l with
  | [] => None
  | y :: rest => if bool_decide (y = x) then Some 0%nat else S <$> index_of x rest
  end.

Definition list_index (x : pystr) (l : list pystr) : M nat :=
  match index_of x l with Some i => mret i | None => raise ValueError end.

(** [st.selectbox(label, options, index=i)]: [choice] is the option the
    user has picked in the widget, [None] while it shows its default
    [options[i]]; with no options the widget returns [None]. *)
Definition selectbox (options : list pystr) (i : nat) (choice : option pystr) : option pystr :=
  match choice with Some v => Some v | None => options !! i end.

(** The text of an ASCII [pystr] (the options of [MODELS] are ASCII). *)
Fixpoint ascii_str (s : pystr) : string :=
  match s with
  | [] => EmptyString
  | c :: rest => String (ascii_of_N c) (ascii_str rest)
  end.

(** ** [sidebar_conversation_selector] (lines 171-217) *)

(** The loop of lines 180-183: the position of the first entry with id
    [cid]. *)
Fixpoint conv_position (cid : pystr) (convs : list conversation) : option nat :=
  match convs with
  | [] => None
  | c :: rest => if bool_decide (conv_id c = cid) then Some 0%nat else S <$> conv_position cid rest
  end.

(** [selected_idx], lines 178-183; [if st.session_state.current_conv_id:]
    tests the truthiness of the id. *)
Definition selected_index : M nat :=
  cid ← get_current_conv_id;
  if bool_decide (cid = []) then mret 0%nat
  else s ← get_ss; mret (default 0%nat (conv_position cid (conversations s))).

(** Lines 176-191. *)
Definition select_conversation (choice : option pystr) : M unit :=
  s ← get_ss;
  let titles := map conv_title (conversations s) in
  idx ← selected_index;
  i ← match selectbox titles idx choice with
      | Some t => list_index t titles
      | None => raise ValueError
      end;
  match conversations s !! i with
  | Some selected_conv =>
      cid ← get_current_conv_id;
      if bool_decide (conv_id selected_conv <> cid) then
        set_current_conv_id (conv_id selected_conv);;
        set_messages (conv_messages selected_conv)
      else mret tt
  | None => raise IndexError    (** not reached: [i] is a position of [titles] *)
  end.

(** The [New] button, lines 196-202. *)
Definition new_conversation_button : M unit :=
  new_id ← uuid4;
  s ← get_ss;
  set_conversations (new_conversation new_id :: conversations s);;
  set_current_conv_id new_id;;
  set_messages [];;
  s ← get_ss;
  save_conversations (user_id s) (conversations s);;
  experimental_rerun.

Definition sidebar_conversation_selector (choice : option pystr)
    (new_pressed delete_pressed : bool) : M unit :=
  select_conversation choice;;
  (if new_pressed then new_conversation_button else mret tt);;
  (if delete_pressed then delete_current_conversation else mret tt).

(** ** [settings_page] (lines 323-336) *)

Definition MODELS : list pystr :=
  [lit "sonar"; lit "sonar-pro"; lit "sonar-deep-research";
   lit "sonar-reasoning-pro"; lit "mistral-7b-instruct"].

Definition set_model (m : pystr) : M unit :=
  modify_ss (fun s => Session (user_id s) (conversations s) (current_conv_id s)
                        (messages s) (authenticated s) (api_key s) (instructions s) m).

(** The [Clear Current Conversation] button, lines 330-336. *)
Definition clear_current_conversation : M unit :=
  s ← get_ss;
  current_conv ← next_current_conv (conversations s);
  set_conversations (update_first (conv_id current_conv) (set_conv_messages [])
                       (conversations s));;
  set_messages [];;
  s ← get_ss;
  save_conversations (user_id s) (conversations s);;
  emit (USuccess "✅ Cleared chat").

Definition settings_page (choice : option pystr) (clear_pressed : bool) : M unit :=
  s ← get_ss;
  idx ← list_index (model s) MODELS;
  (match selectbox MODELS idx choice with
   | Some selected =>
       if bool_decide (selected <> model s) then
         set_model selected;;
         emit (USuccess ("✅ Switched to " ++ ascii_str selected))
       else mret tt
   | None => raise TypeError   (** not reached: [idx] is a position of [MODELS] *)
   end);;
  if clear_pressed then clear_current_conversation else mret tt.

(** ** [instructions_page] (lines 266-320) *)

(** The keys of [st.session_state] the page reads and writes.
    [custom_instructions] is a dict: an association list with distinct
    keys in insertion order; [page_instructions] is
    [st.session_state.instructions], [page_ui] the texts of the
    [st.success] messages shown. *)
Record page_state := PageState {
  custom_instructions : list (pystr * pystr);
  current_instruction_name : pystr;
  page_instructions : pystr;
  instruction_edit_mode : pystr;
  page_ui : list pystr
}.

(** What the widgets of the page return in this run. *)
Record page_input := PageInput {
  in_name : pystr;              (** [st.text_input("Instruction Name")] *)
  in_content : pystr;           (** [st.text_area("Content")] *)
  in_submit : bool;             (** [st.form_submit_button("Save")] *)
  in_cancel : bool;             (** [st.button("Cancel")] *)
  in_select : option pystr;     (** the [selectbox] choice, as [selectbox] *)
  in_new : bool;                (** [st.button("New Instruction")] *)
  in_edited : option pystr;     (** the text area, [None]: its [value] *)
  in_save : bool;               (** [st.button("Save Changes")] *)
  in_delete : bool              (** [st.button("Delete")] *)
}.

Definition PM (A : Type) : Type := page_state -> res A * page_state.

Global Instance PM_ret : MRet PM := fun A a p => (Ok a, p).
Global Instance PM_bind : MBind PM := fun A B f m p =>
  match m p with
  | (Ok a, p') => f a p'
  | (Raise e, p') => (Raise e, p')
  end.

Definition page_raise {A} (e : exc) : PM A := fun p => (Raise e, p).
Definition get_page : PM page_state := fun p => (Ok p, p).
Definition modify_page (f : page_state -> page_state) : PM unit := fun p => (Ok tt, f p).

(** [st.rerun()] *)
Definition page_rerun : PM unit := page_raise RerunException.

Definition set_custom_instructions (d : list (pystr * pystr)) : PM unit :=
  modify_page (fun p => PageState d (current_instruction_name p) (page_instructions p)
                          (instruction_edit_mode p) (page_ui p)).
Definition set_current_instruction_name (n : pystr) : PM unit :=
  modify_page (fun p => PageState (custom_instructions p) n (page_instructions p)
                          (instruction_edit_mode p) (page_ui p)).
Definition set_page_instructions (t : pystr) : PM unit :=
  modify_page (fun p => PageState (custom_instructions p) (current_instruction_name p) t
                          (instruction_edit_mode p) (page_ui p)).
Definition set_instruction_edit_mode (m : pystr) : PM unit :=
  modify_page (fun p => PageState (custom_instructions p) (current_instruction_name p)
                          (page_instructions p) m (page_ui p)).
Definition page_success (msg : pystr) : PM unit :=
  modify_page (fun p => PageState (custom_instructions p) (current_instruction_name p)
                          (page_instructions p) (instruction_edit_mode p) (page_ui p ++ [msg])).

(** Dict operations. *)
Definition dict_keys (d : list (pystr * pystr)) : list pystr := map fst d.

(** [d.get(k)] *)
Fixpoint dict_get (k : pystr) (d : list (pystr * pystr)) : option pystr :=
  match d with
  | [] => None
  | (k', v) :: rest => if bool_decide (k' = k) then Some v else dict_get k rest
  end.

(** [d[k] = v]: in place when [k] is a key, appended otherwise. *)
Fixpoint dict_set (k v : pystr) (d : list (pystr * pystr)) : list (pystr * pystr) :=
  match d with
  | [] => [(k, v)]
  | (k', v') :: rest =>
      if bool_decide (k' = k) then (k', v) :: rest else (k', v') :: dict_set k v rest
  end.

(** [del d[k]] once [k] is known to be a key. *)
Fixpoint dict_del (k : pystr) (d : list (pystr * pystr)) : list (pystr * pystr) :=
  match d with
  | [] => []
  | (k', v') :: rest => if bool_decide (k' = k) then rest else (k', v') :: dict_del k rest
  end.

(** [d[k]] *)
Definition dict_getitem (k : pystr) (d : list (pystr * pystr)) : PM pystr :=
  match dict_get k d with Some v => mret v | None => page_raise KeyError end.

Definition page_index (x : pystr) (l : list pystr) : PM nat :=
  match index_of x l with Some i => mret i | None => page_raise ValueError end.

Definition DEFAULT_NAME : pystr := lit "Default".

(** The code point of "✅". *)
Definition CHECK_MARK : N := 9989%N.

(** [f"✅ Saved '{name}'"] *)
Definition saved_msg (name : pystr) : pystr :=
  [CHECK_MARK] ++ lit " Saved '" ++ name ++ lit "'".

Definition changes_saved_msg : pystr := [CHECK_MARK] ++ lit " Changes saved".
Definition deleted_msg : pystr := [CHECK_MARK] ++ lit " Deleted".

(** [if name and content and name not in st.session_state.custom_instructions] *)
Definition can_create (name content : pystr) (d : list (pystr * pystr)) : bool :=
  negb (bool_decide (name = [])) && negb (bool_decide (content = [])) &&
  negb (bool_decide (name ∈ dict_keys d)).

(** The [create] branch, lines 268-282. *)
Definition create_instruction (inp : page_input) : PM unit :=
  (if in_submit inp then
     p ← get_page;
     if can_create (in_name inp) (in_content inp) (custom_instructions p) then
       set_custom_instructions (dict_set (in_name inp) (in_content inp) (custom_instructions p));;
       set_current_instruction_name (in_name inp);;
       set_page_instructions (in_content inp);;
       set_instruction_edit_mode (lit "view");;
       page_success (saved_msg (in_name inp));;
       page_rerun
     else mret tt
   else mret tt);;
  if in_cancel inp then set_instruction_edit_mode (lit "view");; page_rerun else mret tt.

(** Lines 307-320, for the [selected] entry. *)
Definition edit_instruction (inp : page_input) (selected edited_content : pystr) : PM unit :=
  if bool_decide (selected <> DEFAULT_NAME) then
    (if in_save inp then
       p ← get_page;
       set_custom_instructions (dict_set selected edited_content (custom_instructions p));;
       page_success changes_saved_msg;;
       page_rerun
     else mret tt);;
    (if in_delete inp then
       p ← get_page;
       _ ← dict_getitem selected (custom_instructions p);
       set_custom_instructions (dict_del selected (custom_instructions p));;
       set_current_instruction_name DEFAULT_NAME;;
       p ← get_page;
       d ← dict_getitem DEFAULT_NAME (custom_instructions p);
       set_page_instructions d;;
       page_success deleted_msg;;
       page_rerun
     else mret tt)
  else mret tt.

(** The [view] branch, lines 284-320. The selectbox has options here, as
    [options.index] succeeded, so it never returns [None]. *)
Definition view_instructions (inp : page_input) : PM unit :=
  p ← get_page;
  let options := dict_keys (custom_instructions p) in
  selected_index ← page_index (current_instruction_name p) options;
  match selectbox options selected_index (in_select inp) with
  | Some selected =>
      set_current_instruction_name selected;;
      p ← get_page;
      t ← dict_getitem selected (custom_instructions p);
      set_page_instructions t;;
      (if in_new inp then set_instruction_edit_mode (lit "create");; page_rerun else mret tt);;
      p ← get_page;
      value ← dict_getitem selected (custom_instructions p);
      edit_instruction inp selected (default value (in_edited inp))
  | None => page_raise KeyError
  end.

Definition instructions_page (inp : page_input) : PM unit :=
  p ← get_page;
  if bool_decide (instruction_edit_mode p = lit "create") then create_instruction inp
  else view_instructions inp.

(** ** Concrete runs *)

Definition rand0 (n : nat) : Z := Z.of_nat n * 1234567.

Definition empty_store : store := Store ∅ (fun _ => false) (fun _ => false).

Definition session0 (cs : list conversation) (cur : option pystr) : session :=
  Session (lit "u1") cs cur [] true (Some (lit "pplx-k")) (lit "be brief") (lit "sonar").

Definition world0 (cs : list conversation) (cur : option pystr) (nt : list http_response) : world :=
  World (session0 cs cur) empty_store rand0 0 nt [] [] (Some ∅).

Example uuid_str_shape : uuid_str (uuid4_int 0) = lit "00000000-0000-4000-8000-000000000000".
Proof. vm_compute. reflexivity. Qed.

Example dumps_example :
  json_dumps (JArr [JNum (lit "1"); JStr [233%N; 10%N]; JNull])
  = lit "[1, " ++ [dquote] ++ lit "\u00e9\n" ++ [dquote] ++ lit ", null]".
Proof. vm_compute. reflexivity. Qed.

(** ** Properties *)

(** The entry [next(...)] selects: the first one with the given id. *)
Definition find_conv (cid : pystr) (convs : list conversation) : option conversation :=
  List.find (fun c => bool_decide (conv_id c = cid)) convs.

Definition has_conv (cid : pystr) (convs : list conversation) : Prop :=
  Exists (fun c => conv_id c = cid) convs.

Lemma find_conv_has cid convs :
  has_conv cid convs <-> exists c, find_conv cid convs = Some c.
Proof.
  unfold has_conv, find_conv. induction convs as [|c rest IH]; simpl.
  - split; [intros H; inversion H | intros [? H]; discriminate].
  - case_bool_decide as Hc.
    + split; [eauto | intros _; by constructor].
    + rewrite Exists_cons, <- IH. naive_solver.
Qed.

Lemma find_conv_id cid convs c :
  find_conv cid convs = Some c -> conv_id c = cid.
Proof.
  unfold find_conv. intros H. apply find_some in H as [_ H].
  by apply bool_decide_eq_true in H.
Qed.

Lemma next_current_conv_spec convs w cid :
  current_conv_id (ss w) = Some cid ->
  next_current_conv convs w =
    (match find_conv cid convs with Some c => Ok c | None => Raise StopIteration end, w).
Proof.
  intros Hcur. unfold find_conv. induction convs as [|c rest IH]; [done|].
  simpl. unfold mbind, M_bind, get_current_conv_id, mbind, M_bind, get_ss.
  rewrite Hcur. cbn. by case_bool_decide.
Qed.

Arguments USER_ID_KEY : simpl never.
Arguments NEW_CONVERSATION : simpl never.
Arguments conversations_key : simpl never.
Arguments lit : simpl never.
Arguments uuid_str : simpl never.
Arguments uuid4_int : simpl never.
Arguments json_dumps : simpl never.

Ltac run_m :=
  repeat (unfold mbind, M_bind, mret, M_ret, get_ss, modify_ss, set_conversations,
            set_current_conv_id, set_messages, uuid4, get_current_conv_id in *; cbn in * ).

(** ** C1: what [ensure_current_conversation] repairs *)

(** C1 (counterexample): with conversation ["a"] and a current id ["zz"]
    that references no entry, [ensure_current_conversation] does not select
    the first entry: [next(...)] raises [StopIteration] and nothing changes. *)
Lemma ensure_current_dangling_raises :
  let w := world0 [new_conversation (lit "a")] (Some (lit "zz")) [] in
  ensure_current_conversation w = (Raise StopIteration, w).
Proof. vm_compute. reflexivity. Qed.

(** C1 (amended): when no current id is set, [ensure_current_conversation]
    succeeds with a non-empty list and a current id that references an
    entry: an empty list becomes one synthesized empty conversation titled
    "New Conversation", which is selected, and a non-empty list is kept with
    its first entry selected. When a current id is already set, the list and
    the id are left as they are: the call succeeds when the id references an
    entry and raises [StopIteration] otherwise (an empty list included). *)
Theorem ensure_current_conversation_repairs (w : world) :
  (current_conv_id (ss w) = None ->
   exists w' i,
     ensure_current_conversation w = (Ok tt, w') /\
     conversations (ss w') <> [] /\
     current_conv_id (ss w') = Some i /\
     has_conv i (conversations (ss w')) /\
     (conversations (ss w) = [] -> conversations (ss w') = [new_conversation i]) /\
     (forall c rest, conversations (ss w) = c :: rest ->
        conversations (ss w') = c :: rest /\ i = conv_id c)) /\
  (forall cid, current_conv_id (ss w) = Some cid ->
   (has_conv cid (conversations (ss w)) ->
    exists w', ensure_current_conversation w = (Ok tt, w') /\
      conversations (ss w') = conversations (ss w) /\
      current_conv_id (ss w') = Some cid) /\
   (~ has_conv cid (conversations (ss w)) ->
    ensure_current_conversation w = (Raise StopIteration, w))).
Proof.
  destruct w as [[uid cs cur ms au ak ins mdl] l rd rp nt ps u sc]; cbn.
  split.
  - intros ->. destruct cs as [|c rest].
    + eexists _, _. unfold ensure_current_conversation. run_m.
      rewrite bool_decide_eq_true_2 by done. cbn.
      split_and!; [done|done|done|by constructor|done|done].
    + eexists _, _. unfold ensure_current_conversation. run_m.
      rewrite bool_decide_eq_true_2 by done. cbn.
      split_and!; [done|done|done|by constructor|done|].
      intros ? ? [= <- <-]. done.
  - intros cid ->. split.
    + intros Hhas. apply find_conv_has in Hhas as [c Hc].
      unfold ensure_current_conversation. run_m.
      rewrite (next_current_conv_spec _ _ cid) by done. cbn. rewrite Hc.
      eexists. by split_and!.
    + intros Hnot. unfold ensure_current_conversation. run_m.
      rewrite (next_current_conv_spec _ _ cid) by done. cbn.
      destruct (find_conv cid cs) eqn:Hc; [|done].
      exfalso. apply Hnot, find_conv_has. eauto.
Qed.

(** ** C9: idempotence of [ensure_current_conversation] *)

(** C9: running [ensure_current_conversation] again on the state it left
    behind gives the same outcome and changes nothing (when the first call
    raised, the second raises the same exception on the unchanged state). *)
Theorem ensure_current_conversation_idempotent (w : world) :
  let '(r, w') := ensure_current_conversation w in
  ensure_current_conversation w' = (r, w').
Proof.
  destruct w as [[uid cs cur ms au ak ins mdl] l rd rp nt ps u sc].
  destruct cur as [cid|].
  - unfold ensure_current_conversation. run_m.
    rewrite (next_current_conv_spec _ _ cid) by done. cbn.
    destruct (find_conv cid cs) as [c|] eqn:Hc; cbn.
    + run_m. rewrite (next_current_conv_spec _ _ cid) by done. cbn.
      by rewrite Hc.
    + run_m. rewrite (next_current_conv_spec _ _ cid) by done. cbn.
      by rewrite Hc.
  - destruct cs as [|c rest]; unfold ensure_current_conversation; run_m;
      rewrite bool_decide_eq_true_2 by done; cbn; run_m;
      by rewrite bool_decide_eq_true_2.
Qed.

(** ** C3: the identity is fail-open *)

Lemma uuid_str_nonempty (i : Z) : uuid_str i <> [].
Proof.
  unfold uuid_str. destruct (take 8 (hex32 i)); discriminate.
Qed.

(** The token the [k]-th draw of the random source gives. *)
Definition drawn_token (w : world) (k : nat) : pystr :=
  uuid_str (uuid4_int (rand w (rand_pos w + k))).

(** C3 (counterexample): when no id is stored and the write-back raises,
    the token returned is not the generated token the code tried to write
    (the one a working store would have kept): the [except] branch draws a
    second one. *)
Lemma user_id_write_failure_returns_other_token :
  let w := World (session0 [] None) (Store ∅ (fun _ => false) (fun _ => true))
                 rand0 0 [] [] [] (Some ∅) in
  let w_ok := World (session0 [] None) empty_store rand0 0 [] [] [] (Some ∅) in
  fst (get_persistent_user_id w) = Ok (drawn_token w 1) /\
  drawn_token w 1 <> drawn_token w 0 /\
  kv (ls (snd (get_persistent_user_id w_ok))) !! USER_ID_KEY = Some (drawn_token w 0).
Proof. vm_compute. split_and!; [reflexivity|discriminate|reflexivity]. Qed.

(** C3 (amended): whatever the store does, [get_persistent_user_id]
    returns a non-empty token and raises nothing. A non-empty stored id is
    returned as it is. When the id is absent or empty, a token is generated
    and written back; it is returned when the write succeeds, and when the
    write raises a second freshly generated token is returned instead. When
    the read raises, a freshly generated token is returned and nothing is
    written. *)
Theorem get_persistent_user_id_fail_open (w : world) :
  exists t w', get_persistent_user_id w = (Ok t, w') /\ t <> [] /\
   ss w' = ss w /\
   (read_fails (ls w) USER_ID_KEY = true ->
      t = drawn_token w 0 /\ ls w' = ls w) /\
   (forall u, read_fails (ls w) USER_ID_KEY = false ->
      kv (ls w) !! USER_ID_KEY = Some u -> u <> [] ->
      t = u /\ ls w' = ls w) /\
   (read_fails (ls w) USER_ID_KEY = false ->
      kv (ls w) !! USER_ID_KEY = None \/ kv (ls w) !! USER_ID_KEY = Some [] ->
      (write_fails (ls w) USER_ID_KEY = false ->
         t = drawn_token w 0 /\
         kv (ls w') = <[USER_ID_KEY := drawn_token w 0]> (kv (ls w))) /\
      (write_fails (ls w) USER_ID_KEY = true ->
         t = drawn_token w 1 /\ ls w' = ls w)).
Proof.
  destruct w as [s [kvs rf wf] rd rp nt ps u sc].
  unfold get_persistent_user_id, try_except, getItem, drawn_token. run_m.
  rewrite Nat.add_0_r, Nat.add_1_r.
  destruct (rf USER_ID_KEY) eqn:Hrf; cbn.
  - eexists _, _. split; [reflexivity|].
    split_and!; [apply uuid_str_nonempty|done|done|congruence..].
  - destruct (kvs !! USER_ID_KEY) as [v|] eqn:Hv; cbn.
    + destruct (bool_decide (v = [])) eqn:He.
      * apply bool_decide_eq_true in He as ->. run_m.
        unfold setItem. cbn. destruct (wf USER_ID_KEY) eqn:Hwf; cbn.
        -- eexists _, _. split; [reflexivity|].
           split_and!; [apply uuid_str_nonempty|done|congruence|
                        intros ? _ [= <-]; done|].
           intros _ _. split; [congruence|done].
        -- eexists _, _. split; [reflexivity|].
           split_and!; [apply uuid_str_nonempty|done|congruence|
                        intros ? _ [= <-]; done|].
           intros _ _. split; [done|congruence].
      * apply bool_decide_eq_false in He. run_m.
        eexists _, _. split; [reflexivity|].
        split_and!; [done|done|congruence| |].
        -- intros ? _ [= <-] _. done.
        -- intros _ [?|?]; congruence.
    + run_m. unfold setItem. cbn. destruct (wf USER_ID_KEY) eqn:Hwf; cbn.
      * eexists _, _. split; [reflexivity|].
        split_and!; [apply uuid_str_nonempty|done|congruence|congruence|].
        intros _ _. split; [congruence|done].
      * eexists _, _. split; [reflexivity|].
        split_and!; [apply uuid_str_nonempty|done|congruence|congruence|].
        intros _ _. split; [done|congruence].
Qed.

(** ** What one call of [call_perplexity_api] touches *)

(** [w'] differs from [w] only by what was rendered after it. *)
Definition ui_ext (w w' : world) : Prop :=
  ss w' = ss w /\ ls w' = ls w /\ rand w' = rand w /\ rand_pos w' = rand_pos w /\
  net w' = net w /\ posts w' = posts w /\ secrets w' = secrets w /\
  exists evs, ui w' = ui w ++ evs.

Definition ui_only {A} (m : M A) : Prop := forall w, ui_ext w (snd (m w)).

Lemma ui_ext_refl w : ui_ext w w.
Proof. split_and!; try done. exists []. by rewrite app_nil_r. Qed.

Lemma ui_ext_trans w1 w2 w3 : ui_ext w1 w2 -> ui_ext w2 w3 -> ui_ext w1 w3.
Proof.
  intros (?&?&?&?&?&?&?&[e1 ?]) (?&?&?&?&?&?&?&[e2 ?]).
  split_and!; try congruence. exists (e1 ++ e2). by rewrite app_assoc; congruence.
Qed.

Lemma ui_only_ret {A} (a : A) : ui_only (mret a).
Proof. intros w. apply ui_ext_refl. Qed.

Lemma ui_only_raise {A} e : ui_only (A:=A) (raise e).
Proof. intros w. apply ui_ext_refl. Qed.

Lemma ui_only_emit ev : ui_only (emit ev).
Proof. intros [] ; split_and!; try done. by eexists. Qed.

Lemma ui_only_bind {A B} (m : M A) (f : A -> M B) :
  ui_only m -> (forall a, ui_only (f a)) -> ui_only (m ≫= f).
Proof.
  intros Hm Hf w. unfold mbind, M_bind. specialize (Hm w).
  destruct (m w) as [[a|e] w1]; cbn in *; [|done].
  eapply ui_ext_trans; [exact Hm | apply Hf].
Qed.

Lemma ui_only_try_except {A} (m : M A) catches h :
  ui_only m -> (forall e, ui_only (h e)) -> ui_only (try_except m catches h).
Proof.
  intros Hm Hh w. unfold try_except. specialize (Hm w).
  destruct (m w) as [[a|e] w1]; cbn in *; [done|].
  destruct (catches e); [|done].
  eapply ui_ext_trans; [exact Hm | apply Hh].
Qed.

Create HintDb ui_only.
#[local] Hint Resolve ui_only_ret ui_only_raise ui_only_emit ui_only_bind
  ui_only_try_except : ui_only.

Lemma ui_only_response_json body : ui_only (response_json body).
Proof. unfold response_json. destruct body; auto with ui_only. Qed.

Lemma ui_only_raise_for_status st : ui_only (raise_for_status st).
Proof. unfold raise_for_status. case_match; auto with ui_only. Qed.

Lemma ui_only_getitem_key j k : ui_only (getitem_key j k).
Proof. unfold getitem_key. repeat case_match; auto with ui_only. Qed.

Lemma ui_only_getitem_0 j : ui_only (getitem_0 j).
Proof. unfold getitem_0. repeat case_match; auto with ui_only. Qed.

#[local] Hint Resolve ui_only_response_json ui_only_raise_for_status
  ui_only_getitem_key ui_only_getitem_0 : ui_only.

(** The request [call_perplexity_api msgs mdl key] POSTs. *)
Definition api_request (msgs : list message) (mdl : pystr) (key : option pystr) : request :=
  Request API_URL (bearer key) (api_payload msgs mdl).

(** The world right after the POST. *)
Definition posted (rq : request) (w : world) : world :=
  World (ss w) (ls w) (rand w) (rand_pos w) (drop 1 (net w)) (posts w ++ [rq]) (ui w) (secrets w).

Lemma ui_only_handle_response st body : ui_only (handle_response st body).
Proof. unfold handle_response. case_match; auto 10 with ui_only. Qed.

Lemma requests_post_bind {A} url auth p (k : Z * option json -> M A) w :
  (requests_post url auth p ≫= k) w =
  match net w with
  | Response st body :: _ => k (st, body) (posted (Request url auth p) w)
  | _ => (Raise ConnectionError, posted (Request url auth p) w)
  end.
Proof. unfold mbind, M_bind, requests_post, posted. by destruct (net w) as [|[] ?]. Qed.

Lemma call_perplexity_api_frame msgs mdl key w :
  ui_ext (posted (api_request msgs mdl key) w) (snd (call_perplexity_api msgs mdl key w)).
Proof.
  unfold call_perplexity_api, try_except. rewrite requests_post_bind.
  fold (api_request msgs mdl key).
  assert (Hh : forall e, ui_only (A:=option json) (emit (UApiError e);; mret None))
    by auto with ui_only.
  destruct (net w) as [|[|st body] rest]; cbn.
  1,2: apply (Hh ConnectionError).
  pose proof (ui_only_handle_response st body (posted (api_request msgs mdl key) w)) as Hk.
  destruct (handle_response st body _) as [[?|e] w2]; cbn in *; [done|].
  destruct (is_RequestException e); [|done].
  eapply ui_ext_trans; [exact Hk | apply Hh].
Qed.


(** ** Running [send_user_message] step by step *)

Definition with_ss (s : session) (w : world) : world :=
  World s (ls w) (rand w) (rand_pos w) (net w) (posts w) (ui w) (secrets w).

Lemma bind_get_ss {A} (k : session -> M A) w : (get_ss ≫= k) w = k (ss w) w.
Proof. reflexivity. Qed.

Lemma bind_modify_ss {A} f (k : unit -> M A) w :
  (modify_ss f ≫= k) w = k tt (with_ss (f (ss w)) w).
Proof. reflexivity. Qed.

Lemma bind_emit {A} ev (k : unit -> M A) w :
  (emit ev ≫= k) w =
  k tt (World (ss w) (ls w) (rand w) (rand_pos w) (net w) (posts w) (ui w ++ [ev]) (secrets w)).
Proof. reflexivity. Qed.

Lemma bind_ret {A B} (a : A) (k : A -> M B) w : (mret a ≫= k) w = k a w.
Proof. reflexivity. Qed.

Lemma bind_unfold {A B} (m : M A) (k : A -> M B) w :
  (m ≫= k) w = match m w with (Ok a, w') => k a w' | (Raise e, w') => (Raise e, w') end.
Proof. reflexivity. Qed.

Lemma bind_next_current_conv {A} convs (k : conversation -> M A) w cid :
  current_conv_id (ss w) = Some cid ->
  (next_current_conv convs ≫= k) w =
  match find_conv cid convs with Some c => k c w | None => (Raise StopIteration, w) end.
Proof.
  intros Hcur. rewrite bind_unfold, (next_current_conv_spec _ _ cid Hcur).
  by destruct (find_conv cid convs).
Qed.

(** The session once the user message is appended and the title set. *)
Definition sent_session (u : pystr) (c : conversation) (s : session) : session :=
  Session (user_id s)
    (if is_placeholder_title (conv_title c)
     then update_first (conv_id c) (set_title (take 50 u)) (conversations s)
     else conversations s)
    (current_conv_id s) (messages s ++ [Message (lit "user") (JStr u)])
    (authenticated s) (api_key s) (instructions s) (model s).

Definition api_messages_of (s : session) : list message :=
  Message (lit "system") (JStr (instructions s)) :: messages s.

Lemma send_user_message_run u w cid c :
  current_conv_id (ss w) = Some cid ->
  find_conv cid (conversations (ss w)) = Some c ->
  send_user_message u w =
  (let s1 := sent_session u c (ss w) in
   let w1 := World s1 (ls w) (rand w) (rand_pos w) (net w) (posts w)
                   (ui w ++ [UChat (lit "user") (JStr u)]) (secrets w) in
   match call_perplexity_api (api_messages_of s1) (model s1) (api_key s1) w1 with
   | (Ok resp, w2) => finish_send cid resp w2
   | (Raise e, w2) => (Raise e, w2)
   end).
Proof.
  intros Hcur Hfind. pose proof (find_conv_id _ _ _ Hfind) as Hid.
  destruct w as [[uid cs cur ms au ak ins mdl] l rd rp nt ps uu sc]; cbn in *.
  unfold send_user_message.
  rewrite bind_get_ss. unfold set_messages. rewrite bind_modify_ss, bind_get_ss.
  rewrite (bind_next_current_conv _ _ _ cid) by done. cbn. rewrite Hfind.
  unfold sent_session, api_messages_of; cbn.
  destruct (is_placeholder_title (conv_title c)).
  - unfold set_conversations. rewrite bind_modify_ss, bind_get_ss, bind_emit, bind_unfold.
    cbn. by rewrite Hid.
  - rewrite bind_ret, bind_get_ss, bind_emit, bind_unfold. cbn. by rewrite Hid.
Qed.

Definition FAILED_MSG : string := "❌ Failed to get response from Perplexity API".

(** What [finish_send] appends to the messages, and what it renders. *)
Definition reply_messages (resp : option json) : list message :=
  match resp with
  | Some r => if json_truthy r then [Message (lit "assistant") r] else []
  | None => []
  end.

Definition reply_event (resp : option json) : ui_event :=
  match resp with
  | Some r => if json_truthy r then UChat (lit "assistant") r else UError FAILED_MSG
  | None => UError FAILED_MSG
  end.

(** [save_conversations] on a store. *)
Definition saved_store (uid : pystr) (convs : list conversation) (l : store) : store :=
  if write_fails l (conversations_key uid) then l
  else Store (<[conversations_key uid := json_dumps (JArr (map conversation_json convs))]> (kv l))
             (read_fails l) (write_fails l).

Definition finished_session (cid : pystr) (resp : option json) (s : session) : session :=
  let ms := messages s ++ reply_messages resp in
  Session (user_id s) (update_first cid (set_conv_messages ms) (conversations s))
    (current_conv_id s) ms (authenticated s) (api_key s) (instructions s) (model s).

Definition finished_world (cid : pystr) (resp : option json) (w : world) : world :=
  let s := finished_session cid resp (ss w) in
  World s (saved_store (user_id s) (conversations s) (ls w)) (rand w) (rand_pos w)
    (net w) (posts w) (ui w ++ [reply_event resp]) (secrets w).

Lemma save_conversations_run uid convs w :
  save_conversations uid convs w =
  (Ok tt, World (ss w) (saved_store uid convs (ls w)) (rand w) (rand_pos w)
                (net w) (posts w) (ui w) (secrets w)).
Proof.
  destruct w as [s [kvs rf wf] rd rp nt ps u sc].
  unfold save_conversations, try_except, setItem, saved_store. cbn.
  by destruct (wf _).
Qed.

Lemma finish_send_run cid resp w :
  finish_send cid resp w = (Ok tt, finished_world cid resp w).
Proof.
  destruct w as [[uid cs cur ms au ak ins mdl] l rd rp nt ps u sc].
  unfold finish_send, finished_world, finished_session, reply_messages, reply_event.
  destruct resp as [r|]; [destruct (json_truthy r)|].
  - rewrite bind_unfold, bind_get_ss. unfold set_messages.
    rewrite bind_modify_ss. cbn.
    unfold set_conversations. rewrite bind_get_ss, bind_modify_ss, bind_get_ss.
    rewrite save_conversations_run. cbn. done.
  - rewrite bind_emit, bind_get_ss. unfold set_conversations.
    rewrite bind_modify_ss, bind_get_ss, save_conversations_run. cbn.
    by rewrite app_nil_r.
  - rewrite bind_emit, bind_get_ss. unfold set_conversations.
    rewrite bind_modify_ss, bind_get_ss, save_conversations_run. cbn.
    by rewrite app_nil_r.
Qed.

Lemma find_conv_update_first cid f convs :
  (forall c, conv_id (f c) = conv_id c) ->
  find_conv cid (update_first cid f convs) = fmap f (find_conv cid convs).
Proof.
  intros Hf. unfold find_conv. induction convs as [|c rest IH]; [done|]. cbn.
  case_bool_decide as Hc; cbn.
  - by rewrite bool_decide_eq_true_2 by (by rewrite Hf).
  - by rewrite bool_decide_eq_false_2.
Qed.

Lemma render_messages_run ms w :
  render_messages ms w =
  (Ok tt, World (ss w) (ls w) (rand w) (rand_pos w) (net w) (posts w)
                (ui w ++ map (fun m => UChat (role m) (content m)) ms) (secrets w)).
Proof.
  revert w. induction ms as [|m rest IH]; intros w; cbn.
  - destruct w; cbn. by rewrite app_nil_r.
  - rewrite bind_emit, IH. cbn. by rewrite <- app_assoc.
Qed.

(** The world once the past messages are rendered. *)
Definition rendered (w : world) : world :=
  World (ss w) (ls w) (rand w) (rand_pos w) (net w) (posts w)
        (ui w ++ map (fun m => UChat (role m) (content m)) (messages (ss w))) (secrets w).

Lemma display_chat_send u w :
  u <> [] -> display_chat (Some u) w = send_user_message u (rendered w).
Proof.
  intros Hu. unfold display_chat. rewrite bind_get_ss, bind_unfold, render_messages_run.
  by rewrite bool_decide_eq_false_2.
Qed.

(** The current conversation after [send_user_message], whatever the
    endpoint did. *)
Lemma send_user_message_conv u w cid c :
  current_conv_id (ss w) = Some cid ->
  find_conv cid (conversations (ss w)) = Some c ->
  exists c',
    find_conv cid (conversations (ss (snd (send_user_message u w)))) = Some c' /\
    conv_title c' = (if is_placeholder_title (conv_title c) then take 50 u else conv_title c).
Proof.
  intros Hcur Hfind. pose proof (find_conv_id _ _ _ Hfind) as Hid.
  rewrite (send_user_message_run u w cid c Hcur Hfind). cbn zeta.
  assert (Hs1 : find_conv cid (conversations (sent_session u c (ss w))) =
                Some (if is_placeholder_title (conv_title c)
                      then set_title (take 50 u) c else c)).
  { unfold sent_session. cbn [conversations].
    destruct (is_placeholder_title (conv_title c)).
    - rewrite Hid, find_conv_update_first by done. by rewrite Hfind.
    - done. }
  match goal with |- context [call_perplexity_api ?a ?b ?k ?w1] =>
    pose proof (call_perplexity_api_frame a b k w1) as Hfr;
    destruct (call_perplexity_api a b k w1) as [[resp|e] w2]
  end; cbn [snd] in Hfr; destruct Hfr as (Hss & _); unfold posted in Hss; cbn [ss] in Hss.
  - rewrite finish_send_run. cbn [snd ss conversations finished_world finished_session].
    rewrite find_conv_update_first by done. rewrite Hss, Hs1. cbn.
    eexists; split; [reflexivity|]. by destruct (is_placeholder_title _).
  - cbn [snd]. rewrite Hss, Hs1. eexists; split; [reflexivity|].
    by destruct (is_placeholder_title _).
Qed.

(** ** C4: the title set by the first message *)

(** C4 (counterexample): a conversation titled with the empty string is not
    titled "New Conversation", yet sending "hi" in it renames it to "hi":
    the code treats the empty title as a placeholder as well. *)
Lemma empty_title_is_renamed :
  let w := world0 [Conversation (lit "a") [] []] (Some (lit "a")) [Transport] in
  fmap conv_title (find_conv (lit "a")
    (conversations (ss (snd (display_chat (Some (lit "hi")) w))))) = Some (lit "hi").
Proof. vm_compute. reflexivity. Qed.

(** C4 (amended): sending a non-empty text [u] in the current conversation
    sets its title, when the title is a placeholder ("New Conversation" or
    the empty string), to [u] itself if [u] has at most 50 characters and to
    the first 50 characters of [u] otherwise; any other title is kept. This
    holds whatever the endpoint answers. *)
Theorem display_chat_sets_title (u : pystr) (w : world) (cid : pystr) (c : conversation) :
  u <> [] ->
  current_conv_id (ss w) = Some cid ->
  find_conv cid (conversations (ss w)) = Some c ->
  exists c',
    find_conv cid (conversations (ss (snd (display_chat (Some u) w)))) = Some c' /\
    ((conv_title c = NEW_CONVERSATION \/ conv_title c = []) ->
       (length u <= 50 -> conv_title c' = u)%nat /\
       (50 < length u -> conv_title c' = take 50 u /\ length (conv_title c') = 50)%nat) /\
    (conv_title c <> NEW_CONVERSATION -> conv_title c <> [] -> conv_title c' = conv_title c).
Proof.
  intros Hu Hcur Hfind. rewrite display_chat_send by done.
  destruct (send_user_message_conv u (rendered w) cid c Hcur Hfind) as (c' & Hc' & Ht).
  exists c'. split; [done|]. unfold is_placeholder_title in Ht. split.
  - intros Hp. rewrite bool_decide_eq_true_2 in Ht by done. rewrite Ht. split.
    + intros Hle. by apply take_ge.
    + intros Hlt. split; [done|]. rewrite length_take. lia.
  - intros H1 H2. rewrite bool_decide_eq_false_2 in Ht by naive_solver. done.
Qed.

Lemma display_chat_sets_title_witness :
  exists c',
    find_conv (lit "a") (conversations (ss (snd (display_chat (Some (lit "hi"))
      (world0 [new_conversation (lit "a")] (Some (lit "a")) [Transport]))))) = Some c' /\
    ((conv_title (new_conversation (lit "a")) = NEW_CONVERSATION \/
      conv_title (new_conversation (lit "a")) = []) ->
       (length (lit "hi") <= 50 -> conv_title c' = lit "hi")%nat /\
       (50 < length (lit "hi") -> conv_title c' = take 50 (lit "hi") /\
                                  length (conv_title c') = 50)%nat) /\
    (conv_title (new_conversation (lit "a")) <> NEW_CONVERSATION ->
     conv_title (new_conversation (lit "a")) <> [] ->
     conv_title c' = conv_title (new_conversation (lit "a"))).
Proof.
  apply (display_chat_sets_title (lit "hi")
           (world0 [new_conversation (lit "a")] (Some (lit "a")) [Transport])
           (lit "a") (new_conversation (lit "a"))).
  - discriminate.
  - reflexivity.
  - vm_compute. reflexivity.
Defined.

(** ** C5: the request sent to the endpoint *)

Lemma posts_after_send u w cid c :
  current_conv_id (ss w) = Some cid ->
  find_conv cid (conversations (ss w)) = Some c ->
  posts (snd (send_user_message u w)) =
  posts w ++ [api_request (api_messages_of (sent_session u c (ss w)))
                          (model (ss w)) (api_key (ss w))].
Proof.
  intros Hcur Hfind. rewrite (send_user_message_run u w cid c Hcur Hfind). cbn zeta.
  match goal with |- context [call_perplexity_api ?a ?b ?k ?w1] =>
    pose proof (call_perplexity_api_frame a b k w1) as Hfr;
    destruct (call_perplexity_api a b k w1) as [[resp|e] w2]
  end; cbn [snd] in Hfr; destruct Hfr as (_ & _ & _ & _ & _ & Hposts & _);
    unfold posted in Hposts; cbn [posts] in Hposts.
  - rewrite finish_send_run. exact Hposts.
  - exact Hposts.
Qed.

(** C5: the one request [display_chat] sends for a text [u] carries the
    model, a leading system message with the active instructions followed
    by the whole history of the current conversation and the new user
    message, in order, and the fixed parameters [max_tokens] 4000,
    [temperature] 0.2, [top_p] 0.9 and [stream] false. The session's
    [messages] are the current conversation's, as [ensure_current_conversation]
    leaves them. *)
Theorem display_chat_payload (u : pystr) (w : world) (cid : pystr) (c : conversation) :
  u <> [] ->
  current_conv_id (ss w) = Some cid ->
  find_conv cid (conversations (ss w)) = Some c ->
  messages (ss w) = conv_messages c ->
  posts (snd (display_chat (Some u) w)) =
  posts w ++
  [Request API_URL (bearer (api_key (ss w)))
     (JObj [(lit "model", JStr (model (ss w)));
            (lit "messages",
             JArr (map message_json
                     (Message (lit "system") (JStr (instructions (ss w)))
                      :: conv_messages c ++ [Message (lit "user") (JStr u)])));
            (lit "max_tokens", JNum (lit "4000"));
            (lit "temperature", JNum (lit "0.2"));
            (lit "top_p", JNum (lit "0.9"));
            (lit "stream", JBool false)])].
Proof.
  intros Hu Hcur Hfind Hsync. rewrite display_chat_send by done.
  rewrite (posts_after_send u (rendered w) cid c Hcur Hfind).
  unfold api_request, api_payload, api_messages_of, sent_session. cbn.
  by rewrite Hsync.
Qed.

Lemma display_chat_payload_witness :
  lit "hi" <> [] /\
  posts (snd (display_chat (Some (lit "hi"))
    (world0 [new_conversation (lit "a")] (Some (lit "a")) [Transport]))) =
  [Request API_URL (bearer (Some (lit "pplx-k")))
     (JObj [(lit "model", JStr (lit "sonar"));
            (lit "messages",
             JArr (map message_json
                     (Message (lit "system") (JStr (lit "be brief"))
                      :: [] ++ [Message (lit "user") (JStr (lit "hi"))])));
            (lit "max_tokens", JNum (lit "4000"));
            (lit "temperature", JNum (lit "0.2"));
            (lit "top_p", JNum (lit "0.9"));
            (lit "stream", JBool false)])].
Proof.
  split; [discriminate|].
  apply (display_chat_payload (lit "hi")
           (world0 [new_conversation (lit "a")] (Some (lit "a")) [Transport])
           (lit "a") (new_conversation (lit "a"))).
  - discriminate.
  - reflexivity.
  - vm_compute. reflexivity.
  - reflexivity.
Defined.

(** ** C2: a failed API call *)

Definition BAD_REQUEST_MSG : string :=
  "❌ Bad request: The API payload may be malformed. Check formatting and field names.".

(** The endpoint fails: no response, a transport error, or an HTTP error
    status. *)
Definition api_fails (nt : list http_response) : Prop :=
  match nt with
  | Response st _ :: _ => 400 <= st < 600
  | _ => True
  end.

(** What [call_perplexity_api] renders when the endpoint fails. *)
Definition failure_events (nt : list http_response) : list ui_event :=
  match nt with
  | Response st body :: _ =>
      if bool_decide (st = 400) then
        match body with
        | Some j => [UError BAD_REQUEST_MSG; UJson j]
        | None => [UError BAD_REQUEST_MSG; UApiError JSONDecodeError]
        end
      else [UApiError HTTPError]
  | _ => [UApiError ConnectionError]
  end.

Lemma call_perplexity_api_failure msgs mdl key w :
  api_fails (net w) ->
  call_perplexity_api msgs mdl key w =
  (Ok None, World (ss w) (ls w) (rand w) (rand_pos w) (drop 1 (net w))
                  (posts w ++ [api_request msgs mdl key])
                  (ui w ++ failure_events (net w)) (secrets w)).
Proof.
  intros Hf. unfold call_perplexity_api, try_except. rewrite requests_post_bind.
  unfold failure_events, posted, api_request.
  destruct (net w) as [|[|st body] rest]; cbn in Hf |- *; try reflexivity.
  unfold handle_response. case_bool_decide as H400.
  - rewrite bind_emit, bind_unfold.
    destruct body as [j|]; cbn; rewrite bind_emit; cbn;
      rewrite <- app_assoc; reflexivity.
  - unfold raise_for_status.
    rewrite (proj2 (andb_true_iff _ _)) by (split; apply Z.leb_le || apply Z.ltb_lt; lia).
    reflexivity.
Qed.

(** C2: when the endpoint fails (a transport error or an HTTP error status,
    400 included), [display_chat] returns normally, appends no assistant
    message, leaves the current conversation with its history followed by
    the user message, saves that conversation list under the user's key
    whenever the store accepts the write, and renders the endpoint's error
    (for a 400 its JSON body) followed by "Failed to get response". *)
Theorem display_chat_api_failure (u : pystr) (w : world) (cid : pystr) (c : conversation) :
  u <> [] ->
  current_conv_id (ss w) = Some cid ->
  find_conv cid (conversations (ss w)) = Some c ->
  messages (ss w) = conv_messages c ->
  api_fails (net w) ->
  let w' := snd (display_chat (Some u) w) in
  fst (display_chat (Some u) w) = Ok tt /\
  messages (ss w') = conv_messages c ++ [Message (lit "user") (JStr u)] /\
  fmap conv_messages (find_conv cid (conversations (ss w'))) =
    Some (conv_messages c ++ [Message (lit "user") (JStr u)]) /\
  (write_fails (ls w) (conversations_key (user_id (ss w))) = false ->
   kv (ls w') !! conversations_key (user_id (ss w)) =
     Some (json_dumps (JArr (map conversation_json (conversations (ss w')))))) /\
  ui w' = ui (rendered w) ++ [UChat (lit "user") (JStr u)] ++ failure_events (net w)
            ++ [UError FAILED_MSG].
Proof.
  intros Hu Hcur Hfind Hsync Hf. pose proof (find_conv_id _ _ _ Hfind) as Hid.
  rewrite display_chat_send by done.
  rewrite (send_user_message_run u (rendered w) cid c Hcur Hfind). cbn zeta.
  rewrite call_perplexity_api_failure by exact Hf.
  rewrite finish_send_run. unfold finished_world, finished_session.
  cbn [fst snd ss ls ui rendered messages conversations user_id
       sent_session reply_messages reply_event].
  rewrite !app_nil_r, Hsync.
  split_and!.
  - reflexivity.
  - reflexivity.
  - rewrite find_conv_update_first by done.
    destruct (is_placeholder_title (conv_title c)).
    + rewrite Hid, find_conv_update_first by done. by rewrite Hfind.
    + by rewrite Hfind.
  - intros Hw. unfold saved_store. rewrite Hw. cbn. by rewrite lookup_insert_eq.
  - by rewrite <- !app_assoc.
Qed.

Lemma display_chat_api_failure_witness :
  let w := world0 [new_conversation (lit "a")] (Some (lit "a"))
             [Response 400 (Some (JObj [(lit "error", JStr (lit "bad format"))]))] in
  let w' := snd (display_chat (Some (lit "gg #4")) w) in
  fst (display_chat (Some (lit "gg #4")) w) = Ok tt /\
  messages (ss w') = [] ++ [Message (lit "user") (JStr (lit "gg #4"))] /\
  fmap conv_messages (find_conv (lit "a") (conversations (ss w'))) =
    Some ([] ++ [Message (lit "user") (JStr (lit "gg #4"))]) /\
  (write_fails (ls w) (conversations_key (user_id (ss w))) = false ->
   kv (ls w') !! conversations_key (user_id (ss w)) =
     Some (json_dumps (JArr (map conversation_json (conversations (ss w')))))) /\
  ui w' = ui (rendered w) ++ [UChat (lit "user") (JStr (lit "gg #4"))]
            ++ failure_events (net w) ++ [UError FAILED_MSG].
Proof.
  apply (display_chat_api_failure (lit "gg #4") _ (lit "a") (new_conversation (lit "a"))).
  - discriminate.
  - reflexivity.
  - vm_compute. reflexivity.
  - reflexivity.
  - cbn. lia.
Defined.

(** ** C6: deleting the current conversation *)

Lemma drop_current_spec convs w cid :
  current_conv_id (ss w) = Some cid ->
  drop_current convs w = (Ok (filter (fun c => conv_id c <> cid) convs), w).
Proof.
  intros Hcur. induction convs as [|c rest IH]; [done|]. cbn.
  rewrite bind_unfold. unfold get_current_conv_id. rewrite bind_get_ss, Hcur. cbn.
  rewrite bind_unfold, IH. cbn.
  case_bool_decide; case_decide; done.
Qed.

Lemma filter_other_ids cid (convs : list conversation) :
  cid ∉ map conv_id convs -> filter (fun c => conv_id c <> cid) convs = convs.
Proof.
  induction convs as [|c rest IH]; intros Hn; [done|].
  cbn in Hn. apply not_elem_of_cons in Hn as [Hc Hn].
  rewrite filter_cons, decide_True by congruence. by rewrite IH.
Qed.

(** With distinct ids, keeping the entries whose id is not that of entry
    [i] removes exactly entry [i]. *)
Lemma filter_unique_id (convs : list conversation) i c :
  NoDup (map conv_id convs) -> convs !! i = Some c ->
  filter (fun c' => conv_id c' <> conv_id c) convs = delete i convs.
Proof.
  revert i. induction convs as [|c0 rest IH]; intros i Hnd Hi; [done|].
  cbn in Hnd. apply NoDup_cons in Hnd as [Hnin Hnd].
  destruct i as [|j]; cbn in Hi.
  - injection Hi as ->. rewrite filter_cons, decide_False by congruence.
    by apply filter_other_ids.
  - rewrite filter_cons, decide_True.
    + by rewrite (IH j).
    + intros Heq. apply Hnin. rewrite Heq.
      apply list_elem_of_fmap. exists c. split; [done|].
      by eapply list_elem_of_lookup_2.
Qed.

(** C6: deleting the current conversation, entry [i] of a list with
    distinct ids, removes exactly that entry; when entries remain the first
    one becomes current, and when none remain the list becomes one new empty
    conversation titled "New Conversation", which becomes current. The list
    is saved and the script reruns. *)
Theorem delete_current_conversation_spec (w : world) (i : nat) (c : conversation) :
  NoDup (map conv_id (conversations (ss w))) ->
  conversations (ss w) !! i = Some c ->
  current_conv_id (ss w) = Some (conv_id c) ->
  let w' := snd (delete_current_conversation w) in
  let rest := delete i (conversations (ss w)) in
  fst (delete_current_conversation w) = Raise RerunException /\
  (forall c0 rest', rest = c0 :: rest' ->
     conversations (ss w') = rest /\ current_conv_id (ss w') = Some (conv_id c0) /\
     messages (ss w') = conv_messages c0) /\
  (rest = [] ->
     conversations (ss w') = [new_conversation (drawn_token w 0)] /\
     current_conv_id (ss w') = Some (drawn_token w 0) /\ messages (ss w') = []).
Proof.
  intros Hnd Hi Hcur.
  assert (Hkept : filter (fun c' => conv_id c' <> conv_id c) (conversations (ss w))
                  = delete i (conversations (ss w))) by (by eapply filter_unique_id).
  destruct w as [[uid cs cur ms au ak ins mdl] l rd rp nt ps u sc]; cbn in *.
  unfold drawn_token. cbv zeta.
  remember (delete_current_conversation _) as r eqn:Er.
  unfold delete_current_conversation in Er.
  rewrite bind_get_ss, bind_unfold, (drop_current_spec _ _ (conv_id c)) in Er by done.
  cbn [ss conversations] in Er. rewrite Hkept in Er. unfold set_conversations in Er.
  rewrite bind_modify_ss in Er.
  destruct (delete i cs) as [|c0 rest'] eqn:Hdel;
    unfold mbind, M_bind, mret, M_ret, uuid4, set_current_conv_id, set_messages,
      modify_ss, with_ss, experimental_rerun, raise in Er;
    cbn -[save_conversations] in Er; rewrite save_conversations_run in Er; cbn in Er;
    subst r; cbn.
  - rewrite ?Nat.add_0_r. split_and!; try done; intros ? ? [=].
  - split_and!; try done; intros ? ? [= <- <-]; done.
Qed.

(** The scenario of the spec: conversations A (current) and B; deleting A
    selects B, and deleting B then leaves one fresh empty conversation. *)
Lemma delete_current_conversation_spec_witness :
  let A := Conversation (lit "A") (lit "first") [] in
  let B := Conversation (lit "B") (lit "second") [] in
  let w0 := world0 [A; B] (Some (lit "A")) [] in
  let w1 := snd (delete_current_conversation w0) in
  (fst (delete_current_conversation w0) = Raise RerunException /\
   (forall c0 rest', delete 0%nat [A; B] = c0 :: rest' ->
      conversations (ss w1) = delete 0%nat [A; B] /\
      current_conv_id (ss w1) = Some (conv_id c0) /\ messages (ss w1) = conv_messages c0) /\
   (delete 0%nat [A; B] = [] ->
      conversations (ss w1) = [new_conversation (drawn_token w0 0)] /\
      current_conv_id (ss w1) = Some (drawn_token w0 0) /\ messages (ss w1) = [])) /\
  conversations (ss w1) = [B] /\ current_conv_id (ss w1) = Some (lit "B") /\
  (fst (delete_current_conversation w1) = Raise RerunException /\
   (forall c0 rest', delete 0%nat (conversations (ss w1)) = c0 :: rest' ->
      conversations (ss (snd (delete_current_conversation w1))) = delete 0%nat (conversations (ss w1)) /\
      current_conv_id (ss (snd (delete_current_conversation w1))) = Some (conv_id c0) /\
      messages (ss (snd (delete_current_conversation w1))) = conv_messages c0) /\
   (delete 0%nat (conversations (ss w1)) = [] ->
      conversations (ss (snd (delete_current_conversation w1))) = [new_conversation (drawn_token w1 0)] /\
      current_conv_id (ss (snd (delete_current_conversation w1))) = Some (drawn_token w1 0) /\
      messages (ss (snd (delete_current_conversation w1))) = [])) /\
  delete 0%nat (conversations (ss w1)) = [].
Proof.
  split; [|split; [|split; [|split]]].
  - apply (delete_current_conversation_spec
             (world0 [Conversation (lit "A") (lit "first") [];
                      Conversation (lit "B") (lit "second") []] (Some (lit "A")) []) 0%nat
             (Conversation (lit "A") (lit "first") [])); vm_compute.
    + repeat constructor; set_solver.
    + reflexivity.
    + reflexivity.
  - vm_compute. reflexivity.
  - vm_compute. reflexivity.
  - apply (delete_current_conversation_spec
             (snd (delete_current_conversation
                     (world0 [Conversation (lit "A") (lit "first") [];
                              Conversation (lit "B") (lit "second") []] (Some (lit "A")) [])))
             0%nat (Conversation (lit "B") (lit "second") [])); vm_compute.
    + repeat constructor; set_solver.
    + reflexivity.
    + reflexivity.
  - vm_compute. reflexivity.
Defined.

(** ** C7: errors that escape *)

(** C7 (code_bug evidence): a 200 response whose JSON body has no
    [choices] field makes [call_perplexity_api] raise [KeyError], which only
    [RequestException] is caught for; the exception leaves [display_chat]
    too, after the user message was appended in the session and before the
    conversation list was saved. *)
Lemma malformed_success_body_escapes :
  let w := world0 [new_conversation (lit "a")] (Some (lit "a"))
             [Response 200 (Some (JObj []))] in
  fst (call_perplexity_api [] (lit "sonar") (Some (lit "pplx-k")) w) = Raise KeyError /\
  fst (display_chat (Some (lit "hi")) w) = Raise KeyError /\
  messages (ss (snd (display_chat (Some (lit "hi")) w))) =
    [Message (lit "user") (JStr (lit "hi"))] /\
  kv (ls (snd (display_chat (Some (lit "hi")) w))) = ∅.
Proof. vm_compute. split_and!; reflexivity. Qed.

(** ** C8: the login rule *)

Definition PASSWORD_KEY : pystr := lit "PASSWORD".
Definition DEFAULT_KEY_KEY : pystr := lit "PERPLEXITY_API_KEY".
Arguments PASSWORD_KEY : simpl never.
Arguments DEFAULT_KEY_KEY : simpl never.

(** C8 (counterexample): when the configured shared secret is the empty
    string, the empty credential is accepted and the default key is used. *)
Lemma empty_credential_accepted_with_empty_secret :
  let w := World (session0 [] None) empty_store rand0 0 [] [] []
             (Some (<[lit "PASSWORD" := []]> (<[lit "PERPLEXITY_API_KEY" := lit "pplx-default"]> ∅))) in
  authenticated (ss (snd (login [] w))) = true /\
  api_key (ss (snd (login [] w))) = Some (lit "pplx-default").
Proof. vm_compute. split; reflexivity. Qed.

(** C8 (amended): a credential starting with "pplx-" (hence non-empty) is
    accepted as the API key. For any other credential, when no secrets file
    is configured the comparison with the shared secret raises Streamlit's
    secret-not-found error and the session is left as it was. With a
    secrets file, a credential equal to the configured shared secret is
    accepted with the configured default API key (and raises [KeyError],
    leaving the session as it was, when no default key is configured).
    Every other credential, the empty one included unless the shared secret
    is itself empty, is rejected with an error message and the session is
    left as it was. *)
Theorem login_rule (w : world) (k : pystr) :
  let '(r, w') := login k w in
  (startswith k (lit "pplx-") = true ->
     k <> [] /\ r = Raise RerunException /\
     authenticated (ss w') = true /\ api_key (ss w') = Some k) /\
  (startswith k (lit "pplx-") = false -> secrets w = None ->
     r = Raise StreamlitSecretNotFoundError /\ ss w' = ss w) /\
  (forall sc, secrets w = Some sc ->
   (startswith k (lit "pplx-") = false -> sc !! PASSWORD_KEY = Some k ->
      forall d, sc !! DEFAULT_KEY_KEY = Some d ->
      r = Raise RerunException /\ authenticated (ss w') = true /\ api_key (ss w') = Some d) /\
   (startswith k (lit "pplx-") = false -> sc !! PASSWORD_KEY = Some k ->
      sc !! DEFAULT_KEY_KEY = None ->
      r = Raise KeyError /\ ss w' = ss w) /\
   (startswith k (lit "pplx-") = false -> sc !! PASSWORD_KEY <> Some k ->
      r = Ok tt /\ ss w' = ss w /\ ui w' = ui w ++ [UError "❌ Invalid key or password"])).
Proof.
  destruct w as [s l rd rp nt ps u sc0]. unfold login. cbn [secrets].
  destruct (startswith k (lit "pplx-")) eqn:Hp.
  - assert (Hk : k <> []) by (intros ->; discriminate Hp).
    rewrite bool_decide_eq_false_2 by done. cbn.
    split_and!; try done; intros; discriminate.
  - rewrite andb_false_r, bind_unfold. cbn [get_world secrets].
    fold PASSWORD_KEY DEFAULT_KEY_KEY.
    destruct sc0 as [sc0|].
    + case_bool_decide as Hpw;
        [destruct (sc0 !! DEFAULT_KEY_KEY) as [d0|] eqn:Hd|]; cbn;
        (split; [intros; discriminate|]); (split; [intros; discriminate|]);
        intros sc Hsc; injection Hsc as <-;
        split_and!; intros; simplify_eq; try done; by destruct s.
    + cbn. split; [intros; discriminate|]. split; [done|]. intros; discriminate.
Qed.

(** ** C10: what [load_conversations] checks *)

(** C10: for any decoder, [load_conversations] returns whatever the
    decoder makes of a non-empty stored string, a non-list value such as
    the number 42 included; it falls back to the empty list only when the
    key is absent, the stored string is empty, the read raises or the
    decoding raises. It changes nothing. *)
Theorem load_conversations_no_shape_check
    (json_loads : pystr -> option json) (uid : pystr) (w : world) :
  (forall raw v,
     read_fails (ls w) (conversations_key uid) = false ->
     kv (ls w) !! conversations_key uid = Some raw -> raw <> [] ->
     json_loads raw = Some v ->
     load_conversations json_loads uid w = (Ok v, w)) /\
  (read_fails (ls w) (conversations_key uid) = true \/
   kv (ls w) !! conversations_key uid = None \/
   kv (ls w) !! conversations_key uid = Some [] \/
   (exists raw, kv (ls w) !! conversations_key uid = Some raw /\ json_loads raw = None) ->
   load_conversations json_loads uid w = (Ok (JArr []), w)).
Proof.
  unfold load_conversations, try_except. rewrite bind_unfold. unfold getItem. split.
  - intros raw v Hrf Hkv Hraw Hv. rewrite Hrf, Hkv. cbn.
    rewrite bool_decide_eq_false_2 by done. by rewrite Hv.
  - intros Hcases. destruct (read_fails _ _) eqn:Hrf; [done|].
    destruct Hcases as [?|[Hkv|[Hkv|(raw & Hkv & Hv)]]]; [done|..];
      rewrite Hkv; cbn; [done|done|].
    case_bool_decide; [done|]. by rewrite Hv.
Qed.

(** The spec's example: a store holding "42" under the user's key yields
    the number 42, once [json.loads] decodes "42" to 42. *)
Example load_conversations_42 :
  let loads := fun s : pystr => if bool_decide (s = lit "42") then Some (JNum (lit "42")) else None in
  let w := World (session0 [] None)
             (Store (<[conversations_key (lit "u1") := lit "42"]> ∅) (fun _ => false) (fun _ => false))
             rand0 0 [] [] [] (Some ∅) in
  fst (load_conversations loads (lit "u1") w) = Ok (JNum (lit "42")).
Proof. vm_compute. reflexivity. Qed.

(** ** Beyond the claims: positions in lists *)

(** The entry [titles.index(t)] designates: the first one titled [t]. *)
Definition find_title (t : pystr) (convs : list conversation) : option conversation :=
  List.find (fun c => bool_decide (conv_title c = t)) convs.

Lemma find_title_index t convs :
  find_title t convs = (i ← index_of t (map conv_title convs); convs !! i).
Proof.
  unfold find_title. induction convs as [|c rest IH]; [done|]. cbn.
  case_bool_decide as Hc; [done|].
  rewrite IH. by destruct (index_of t (map conv_title rest)).
Qed.

Lemma find_conv_position cid convs :
  find_conv cid convs = (i ← conv_position cid convs; convs !! i).
Proof.
  unfold find_conv. induction convs as [|c rest IH]; [done|]. cbn.
  case_bool_decide as Hc; [done|].
  rewrite IH. by destruct (conv_position cid rest).
Qed.

Lemma index_of_elem (x : pystr) l :
  x ∈ l -> exists i, index_of x l = Some i /\ l !! i = Some x.
Proof.
  induction l as [|y rest IH]; [by intros ?%not_elem_of_nil|].
  intros Hx. cbn. case_bool_decide as Hy; [subst; by exists 0%nat|].
  apply elem_of_cons in Hx as [->|Hx]; [done|].
  destruct (IH Hx) as (i & -> & Hi). by exists (S i).
Qed.

Lemma index_of_lookup (x : pystr) l i : index_of x l = Some i -> l !! i = Some x.
Proof.
  revert i. induction l as [|y rest IH]; intros i; [done|]. cbn.
  case_bool_decide as Hy; [intros [= <-]; by subst|].
  destruct (index_of x rest) as [j|] eqn:Hj; [|done]. intros [= <-]. by apply IH.
Qed.

Lemma index_of_not_elem (x : pystr) l : x ∉ l -> index_of x l = None.
Proof.
  induction l as [|y rest IH]; [done|]. intros Hx. cbn.
  rewrite bool_decide_eq_false_2 by (intros ->; apply Hx; left).
  rewrite IH; [done|]. intros ?; apply Hx; by right.
Qed.

Lemma lookup_map_conv_title convs i :
  map conv_title convs !! i = conv_title <$> convs !! i.
Proof. apply list_lookup_fmap. Qed.

Lemma find_title_self c convs :
  NoDup (map conv_title convs) -> c ∈ convs -> find_title (conv_title c) convs = Some c.
Proof.
  unfold find_title. induction convs as [|c' rest IH]; [by intros _ ?%not_elem_of_nil|].
  cbn. intros [Hn Hnd]%NoDup_cons Hc. case_bool_decide as Ht.
  - apply elem_of_cons in Hc as [->|Hc]; [done|].
    exfalso. apply Hn. rewrite Ht. by apply list_elem_of_fmap_2.
  - apply elem_of_cons in Hc as [->|Hc]; [done|]. by apply IH.
Qed.

(** ** Beyond the claims: dictionary operations *)

Lemma dict_get_elem k d v : dict_get k d = Some v -> k ∈ dict_keys d.
Proof.
  unfold dict_keys. induction d as [|[k' v'] rest IH]; [done|]. cbn. case_bool_decide as Hk.
  - intros _. subst. left.
  - intros H. right. by apply IH.
Qed.

Lemma dict_elem_get k d : k ∈ dict_keys d -> exists v, dict_get k d = Some v.
Proof.
  unfold dict_keys. induction d as [|[k' v'] rest IH]; [by intros ?%not_elem_of_nil|]. cbn.
  case_bool_decide as Hk; [eauto|].
  intros [->|H]%elem_of_cons; [done|]. by apply IH.
Qed.

Lemma dict_set_keys k v d : k ∈ dict_keys d -> dict_keys (dict_set k v d) = dict_keys d.
Proof.
  unfold dict_keys. induction d as [|[k' v'] rest IH]; [by intros ?%not_elem_of_nil|]. cbn.
  case_bool_decide as Hk; [done|].
  intros [->|H]%elem_of_cons; [done|]. cbn. by rewrite IH.
Qed.

Lemma dict_set_new k v d : k ∉ dict_keys d -> dict_set k v d = d ++ [(k, v)].
Proof.
  unfold dict_keys. induction d as [|[k' v'] rest IH]; [done|]. cbn. intros Hk.
  rewrite bool_decide_eq_false_2 by (intros ->; apply Hk; left).
  rewrite IH; [done|]. intros ?; apply Hk; by right.
Qed.

Lemma dict_get_set_ne k' k v d : k' <> k -> dict_get k' (dict_set k v d) = dict_get k' d.
Proof.
  unfold dict_keys. intros Hne. induction d as [|[k0 v0] rest IH]; cbn.
  - by rewrite bool_decide_eq_false_2 by congruence.
  - case_bool_decide as H0; cbn.
    + subst. by rewrite !bool_decide_eq_false_2 by congruence.
    + by rewrite IH.
Qed.

Lemma dict_get_set_eq k v d : dict_get k (dict_set k v d) = Some v.
Proof.
  unfold dict_keys. induction d as [|[k0 v0] rest IH]; cbn.
  - by rewrite bool_decide_eq_true_2.
  - case_bool_decide as H0; cbn.
    + by rewrite bool_decide_eq_true_2.
    + by rewrite bool_decide_eq_false_2.
Qed.

Lemma dict_get_del_ne k' k d : k' <> k -> dict_get k' (dict_del k d) = dict_get k' d.
Proof.
  unfold dict_keys. intros Hne. induction d as [|[k0 v0] rest IH]; [done|]. cbn.
  case_bool_decide as H0.
  - subst. by rewrite bool_decide_eq_false_2 by congruence.
  - cbn. by rewrite IH.
Qed.

Lemma filter_ne_not_elem (x : pystr) (l : list pystr) : x ∉ l -> filter (fun y => y <> x) l = l.
Proof.
  induction l as [|y rest IH]; [done|]. intros [Hy Hx]%not_elem_of_cons.
  rewrite filter_cons_True by done. by rewrite IH.
Qed.

Lemma dict_del_keys k d :
  NoDup (dict_keys d) -> dict_keys (dict_del k d) = filter (fun k' => k' <> k) (dict_keys d).
Proof.
  unfold dict_keys. induction d as [|[k0 v0] rest IH]; [done|]. cbn. intros [Hn Hnd]%NoDup_cons.
  case_bool_decide as H0.
  - subst. rewrite decide_False by tauto. symmetry. by apply filter_ne_not_elem.
  - rewrite decide_True by done. cbn. by rewrite IH.
Qed.

(** ** Beyond the claims: the serialized list *)

Lemma json_dumps_arr l :
  json_dumps (JArr l) = 91%N :: join (lit ", ") (map json_dumps l) ++ lit "]".
Proof. reflexivity. Qed.

Lemma conversations_key_prefix uid : conversations_key uid = 99%N :: lit "onversations_" ++ uid.
Proof. reflexivity. Qed.

Lemma USER_ID_KEY_head : USER_ID_KEY = 117%N :: lit "ser_id".
Proof. reflexivity. Qed.

(** X1: once [save_conversations] has written the list, [load_conversations]
    of the same user reads back exactly the text [json.dumps] produced:
    it returns what the decoder makes of it (the empty list when decoding
    raises), and changes nothing. *)
Theorem save_then_load (json_loads : pystr -> option json) uid convs w :
  write_fails (ls w) (conversations_key uid) = false ->
  read_fails (ls w) (conversations_key uid) = false ->
  let w1 := snd (save_conversations uid convs w) in
  load_conversations json_loads uid w1 =
  (Ok (default (JArr []) (json_loads (json_dumps (JArr (map conversation_json convs))))), w1).
Proof.
  intros Hw Hr. rewrite save_conversations_run. unfold saved_store. rewrite Hw. cbn.
  unfold load_conversations, try_except. rewrite bind_unfold. unfold getItem. cbn.
  rewrite Hr, lookup_insert_eq. cbn.
  rewrite bool_decide_eq_false_2 by (rewrite json_dumps_arr; discriminate).
  by destruct (json_loads _).
Qed.

(** X2: [save_conversations] raises nothing and writes at most the key of
    its user: every other key of the store, the stored user id and the
    lists of other users included, keeps its value, and the session is
    unchanged. *)
Theorem save_conversations_isolation uid convs w :
  let '(r, w') := save_conversations uid convs w in
  r = Ok tt /\ ss w' = ss w /\
  (forall k, k <> conversations_key uid -> kv (ls w') !! k = kv (ls w) !! k) /\
  kv (ls w') !! USER_ID_KEY = kv (ls w) !! USER_ID_KEY /\
  (forall uid', uid' <> uid ->
     kv (ls w') !! conversations_key uid' = kv (ls w) !! conversations_key uid').
Proof.
  rewrite save_conversations_run. cbn.
  assert (Hk : forall k, k <> conversations_key uid ->
            kv (saved_store uid convs (ls w)) !! k = kv (ls w) !! k).
  { intros k Hne. unfold saved_store. destruct (write_fails _ _); [done|].
    cbn. by rewrite lookup_insert_ne by congruence. }
  split_and!; try done.
  - apply Hk. rewrite conversations_key_prefix, USER_ID_KEY_head. congruence.
  - intros uid' Hne. apply Hk. unfold conversations_key.
    intros Heq. apply Hne. by apply app_inv_head in Heq.
Qed.

(** ** Beyond the claims: the stored text is ASCII *)

Definition is_ascii (n : N) : bool := (n <? 128)%N.
Definition ascii_text (s : pystr) : bool := forallb is_ascii s.

(** Every number in [j] has an ASCII text (as [float.__repr__] and
    [int.__repr__] produce). *)
Fixpoint nums_ascii (j : json) : bool :=
  match j with
  | JNum t => ascii_text t
  | JArr l => forallb nums_ascii l
  | JObj kvs => forallb (fun kv => nums_ascii kv.2) kvs
  | _ => true
  end.

(** Induction over [json] through the lists it nests. *)
Fixpoint json_ind' (P : json -> Prop) (fnull : P JNull) (fbool : forall b, P (JBool b))
    (fnum : forall t, P (JNum t)) (fstr : forall s, P (JStr s))
    (farr : forall l, Forall P l -> P (JArr l))
    (fobj : forall kvs, Forall (fun kv => P kv.2) kvs -> P (JObj kvs)) (j : json) : P j :=
  match j with
  | JNull => fnull
  | JBool b => fbool b
  | JNum t => fnum t
  | JStr s => fstr s
  | JArr l =>
      farr l ((fix go (l : list json) : Forall P l :=
                 match l with
                 | [] => @List.Forall_nil _ P
                 | x :: rest => @List.Forall_cons _ P x rest
                                  (json_ind' P fnull fbool fnum fstr farr fobj x) (go rest)
                 end) l)
  | JObj kvs =>
      fobj kvs ((fix go (kvs : list (pystr * json)) : Forall (fun kv => P kv.2) kvs :=
                   match kvs with
                   | [] => @List.Forall_nil _ _
                   | (k, v) :: rest => @List.Forall_cons _ (fun kv => P kv.2) (k, v) rest
                                         (json_ind' P fnull fbool fnum fstr farr fobj v) (go rest)
                   end) kvs)
  end.

Lemma ascii_text_app s1 s2 : ascii_text (s1 ++ s2) = ascii_text s1 && ascii_text s2.
Proof. apply forallb_app. Qed.

Lemma hex_digit_ascii x : is_ascii (hex_digit (Z.land x 15)) = true.
Proof.
  change 15 with (Z.ones 4). rewrite Z.land_ones by lia.
  pose proof (Z.mod_pos_bound x (2 ^ 4)) as Hb.
  unfold is_ascii, hex_digit. apply N.ltb_lt.
  destruct (x mod 2 ^ 4 <? 10) eqn:Hd; cbn.
  - apply Z.ltb_lt in Hd. lia.
  - apply Z.ltb_ge in Hd. lia.
Qed.

Lemma hex4_ascii n : ascii_text (hex4 n) = true.
Proof. unfold ascii_text, hex4. cbn. by rewrite !hex_digit_ascii. Qed.

Lemma escape_char_ascii c : ascii_text (escape_char c) = true.
Proof.
  unfold escape_char.
  repeat (case_bool_decide; [try (subst; reflexivity)|]); rewrite ?ascii_text_app, ?hex4_ascii;
    try reflexivity.
  cbn. unfold is_ascii. rewrite andb_true_r. apply N.ltb_lt. lia.
Qed.

Lemma ascii_text_concat xs : Forall (fun x => ascii_text x = true) xs -> ascii_text (concat xs) = true.
Proof. induction 1; [done|]. cbn. rewrite ascii_text_app. by apply andb_true_intro. Qed.

Lemma dumps_str_ascii s : ascii_text (dumps_str s) = true.
Proof.
  unfold dumps_str. rewrite !ascii_text_app, ascii_text_concat; [done|].
  induction s; constructor; [apply escape_char_ascii|done].
Qed.

Lemma join_ascii sep xs :
  ascii_text sep = true -> Forall (fun x => ascii_text x = true) xs -> ascii_text (join sep xs) = true.
Proof.
  intros Hs Hxs. destruct Hxs as [|x rest Hx Hrest]; [done|]. cbn.
  rewrite ascii_text_app, Hx, ascii_text_concat; [done|].
  induction Hrest; constructor; [|done]. by rewrite ascii_text_app, Hs.
Qed.

Lemma json_dumps_ascii j : nums_ascii j = true -> ascii_text (json_dumps j) = true.
Proof.
  induction j as [| b | t | s | l IH | kvs IH] using json_ind'; intros H.
  - reflexivity.
  - by destruct b.
  - done.
  - apply dumps_str_ascii.
  - rewrite json_dumps_arr. cbn [ascii_text forallb]. rewrite ascii_text_app, join_ascii; [done..|].
    cbn in H. induction IH as [|x rest Hx _ IHr]; constructor.
    + apply Hx. cbn in H. by apply andb_prop in H as [? _].
    + apply IHr. cbn in H. by apply andb_prop in H as [_ ?].
  - change (json_dumps (JObj kvs)) with
      (lit "{" ++ join (lit ", ")
        (map (fun kv => dumps_str kv.1 ++ lit ": " ++ json_dumps kv.2) kvs) ++ lit "}").
    rewrite !ascii_text_app, join_ascii; [done..|].
    cbn in H. induction IH as [|[k v] rest Hx _ IHr]; constructor.
    + cbn in H. cbv beta. cbn [fst snd] in Hx |- *. apply andb_prop in H as [Hv _].
      rewrite !ascii_text_app, dumps_str_ascii, Hx; done.
    + apply IHr. cbn in H. by apply andb_prop in H as [_ ?].
Qed.

Lemma ascii_text_Forall s : ascii_text s = true -> Forall (fun n => (n < 128)%N) s.
Proof.
  induction s as [|n s IH]; [constructor|]. cbn. intros [Hn Hs]%andb_prop.
  constructor; [by apply N.ltb_lt|auto].
Qed.

Lemma conversations_nums_ascii convs :
  Forall (fun c => Forall (fun m => nums_ascii (content m) = true) (conv_messages c)) convs ->
  nums_ascii (JArr (map conversation_json convs)) = true.
Proof.
  induction 1 as [|c rest Hc _ IH]; [done|]. cbn. apply andb_true_intro. split; [|done].
  rewrite !andb_true_r. induction Hc as [|m ms Hm _ IHm]; [done|]. cbn.
  by rewrite Hm, IHm.
Qed.

(** X3: when every number inside the message contents has an ASCII text,
    the text [save_conversations] writes is pure ASCII ([json.dumps]
    escapes every other character), and a successful write stores exactly
    the [json.dumps] text of the list. *)
Theorem saved_conversations_ascii uid convs w :
  Forall (fun c => Forall (fun m => nums_ascii (content m) = true) (conv_messages c)) convs ->
  write_fails (ls w) (conversations_key uid) = false ->
  kv (ls (snd (save_conversations uid convs w))) !! conversations_key uid
    = Some (json_dumps (JArr (map conversation_json convs))) /\
  Forall (fun n => (n < 128)%N) (json_dumps (JArr (map conversation_json convs))).
Proof.
  intros Hnums Hw. split.
  - rewrite save_conversations_run. unfold saved_store. rewrite Hw. cbn.
    apply lookup_insert_eq.
  - by apply ascii_text_Forall, json_dumps_ascii, conversations_nums_ascii.
Qed.

(** ** Beyond the claims: the user id persists *)

(** X4: when the store reads and writes the [user_id] key without
    failing, a second call of [get_persistent_user_id] returns the token
    the first returned, draws no new random value and changes nothing. *)
Theorem get_persistent_user_id_stable w t w1 :
  read_fails (ls w) USER_ID_KEY = false -> write_fails (ls w) USER_ID_KEY = false ->
  get_persistent_user_id w = (Ok t, w1) ->
  get_persistent_user_id w1 = (Ok t, w1).
Proof.
  destruct w as [s [kvs rf wf] rd rp nt ps u sc]; cbn. intros Hr Hw.
  unfold get_persistent_user_id, try_except, getItem, setItem. run_m. rewrite !Hr.
  destruct (kvs !! USER_ID_KEY) as [v|] eqn:Hv; cbn.
  - case_bool_decide as He; cbn.
    + rewrite Hw. cbn. intros [= <- <-]. cbn.
      rewrite Hr, lookup_insert_eq. cbn.
      by rewrite bool_decide_eq_false_2 by apply uuid_str_nonempty.
    + intros [= <- <-]. cbn. rewrite Hr, Hv. cbn.
      by rewrite bool_decide_eq_false_2 by done.
  - rewrite Hw. cbn. intros [= <- <-]. cbn.
    rewrite Hr, lookup_insert_eq. cbn.
    by rewrite bool_decide_eq_false_2 by apply uuid_str_nonempty.
Qed.

(** ** Beyond the claims: the conversation selector *)

(** The session once [selected] is made current. *)
Definition selected_session (c : conversation) (s : session) : session :=
  Session (user_id s) (conversations s) (Some (conv_id c)) (conv_messages c)
    (authenticated s) (api_key s) (instructions s) (model s).

Lemma select_conversation_run choice w cid :
  current_conv_id (ss w) = Some cid ->
  select_conversation choice w =
  (let convs := conversations (ss w) in
   let idx := if bool_decide (cid = []) then 0%nat
              else default 0%nat (conv_position cid convs) in
   match selectbox (map conv_title convs) idx choice with
   | None => (Raise ValueError, w)
   | Some t =>
       match find_title t convs with
       | None => (Raise ValueError, w)
       | Some c =>
           if bool_decide (conv_id c <> cid) then (Ok tt, with_ss (selected_session c (ss w)) w)
           else (Ok tt, w)
       end
   end).
Proof.
  intros Hcur.
  destruct w as [[uid cs cur ms au ak ins mdl] l rd rp nt ps u sc]; cbn in Hcur; subst cur.
  unfold select_conversation, selected_index, get_current_conv_id, list_index.
  unfold mbind, M_bind, get_ss, mret, M_ret, raise, set_current_conv_id, set_messages,
    modify_ss. cbn -[selectbox find_title].
  destruct (bool_decide (cid = [])); cbn -[selectbox find_title];
    (destruct (selectbox _ _ choice) as [t|]; [|done]);
    rewrite find_title_index; destruct (index_of t (map conv_title cs)) as [i|] eqn:Hi;
    cbn; try done;
    (destruct (cs !! i) as [c|] eqn:Hc; cbn;
     [case_bool_decide; cbn; done
     |apply index_of_lookup in Hi; rewrite list_lookup_fmap, Hc in Hi; done]).
Qed.

(** X5: when the user picks the title [t] in the selector, the conversation
    made current is the first one titled [t]: a later conversation with the
    same title as an earlier one cannot be selected. The list is not
    changed, and the messages shown become those of the picked entry when
    it is not already current. *)
Theorem select_conversation_first_title w cid t c :
  current_conv_id (ss w) = Some cid ->
  find_title t (conversations (ss w)) = Some c ->
  exists w', select_conversation (Some t) w = (Ok tt, w') /\
    conversations (ss w') = conversations (ss w) /\
    current_conv_id (ss w') = Some (conv_id c) /\
    messages (ss w') = (if bool_decide (conv_id c = cid) then messages (ss w) else conv_messages c).
Proof.
  intros Hcur Hc. rewrite (select_conversation_run _ _ cid Hcur). cbn. rewrite Hc.
  case_bool_decide as Hne.
  - eexists. split; [done|]. cbn. by rewrite bool_decide_eq_false_2.
  - eexists. split; [done|]. rewrite bool_decide_eq_true_2 by tauto.
    by rewrite Hcur, Hne.
Qed.

(** X6: when the selector is left untouched and the current id [cid] (a
    non-empty string) references the entry [c], the conversation made
    current is the first one whose title is the title of [c]: a current
    conversation that shares its title with an earlier one loses the
    selection to it without any user action. *)
Theorem select_conversation_untouched w cid c :
  current_conv_id (ss w) = Some cid -> cid <> [] ->
  find_conv cid (conversations (ss w)) = Some c ->
  exists c1, find_title (conv_title c) (conversations (ss w)) = Some c1 /\
  exists w', select_conversation None w = (Ok tt, w') /\
    conversations (ss w') = conversations (ss w) /\
    current_conv_id (ss w') = Some (conv_id c1) /\
    messages (ss w') = (if bool_decide (conv_id c1 = cid) then messages (ss w) else conv_messages c1).
Proof.
  intros Hcur Hne Hc. rewrite (select_conversation_run _ _ cid Hcur). cbn.
  rewrite bool_decide_eq_false_2 by done.
  rewrite find_conv_position in Hc.
  destruct (conv_position cid (conversations (ss w))) as [j|]; cbn in Hc; [|done].
  cbn [default from_option id]. rewrite lookup_map_conv_title, Hc. cbn -[find_title].
  assert (Hin : c ∈ conversations (ss w)) by (by eapply list_elem_of_lookup_2).
  rewrite find_title_index.
  destruct (index_of_elem (conv_title c) (map conv_title (conversations (ss w))))
    as (i & Hi & Hil); [by apply list_elem_of_fmap_2|].
  rewrite Hi. cbn. rewrite lookup_map_conv_title in Hil.
  destruct (conversations (ss w) !! i) as [c1|] eqn:Hc1; [|done].
  exists c1. split; [done|].
  case_bool_decide as Hne1.
  - eexists. split; [done|]. cbn. by rewrite bool_decide_eq_false_2.
  - eexists. split; [done|]. rewrite bool_decide_eq_true_2 by tauto.
    by rewrite Hcur, Hne1.
Qed.

Lemma select_conversation_untouched_distinct_step w cid :
  current_conv_id (ss w) = Some cid -> cid <> [] ->
  has_conv cid (conversations (ss w)) ->
  NoDup (map conv_title (conversations (ss w))) ->
  select_conversation None w = (Ok tt, w).
Proof.
  intros Hcur Hne [c Hc]%find_conv_has Hnd.
  assert (Hin : c ∈ conversations (ss w)).
  { unfold find_conv in Hc. apply find_some in Hc as [Hc _]. by apply list_elem_of_In. }
  rewrite (select_conversation_run _ _ cid Hcur). cbn.
  rewrite bool_decide_eq_false_2 by done.
  pose proof Hc as Hc'. rewrite find_conv_position in Hc'.
  destruct (conv_position cid (conversations (ss w))) as [j|]; cbn in Hc'; [|done].
  cbn [default from_option id]. rewrite lookup_map_conv_title, Hc'. cbn -[find_title].
  rewrite find_title_self by done.
  pose proof (find_conv_id _ _ _ Hc) as Hid.
  by rewrite bool_decide_eq_false_2 by tauto.
Qed.

(** X7: when conversation titles are distinct and the current id (a
    non-empty string) references an entry, leaving the selector untouched
    changes nothing. *)
Theorem select_conversation_untouched_distinct w cid :
  current_conv_id (ss w) = Some cid -> cid <> [] ->
  has_conv cid (conversations (ss w)) ->
  NoDup (map conv_title (conversations (ss w))) ->
  select_conversation None w = (Ok tt, w).
Proof. apply select_conversation_untouched_distinct_step. Qed.

(** X8: the [New] button puts a fresh empty conversation, titled "New
    Conversation" and named by the next uuid4 token, in front of the
    existing ones (kept in order), makes it current with no messages,
    saves the whole list for the user and reruns the script. *)
Theorem new_conversation_button_run w :
  let t := drawn_token w 0 in
  let convs' := new_conversation t :: conversations (ss w) in
  let '(r, w') := new_conversation_button w in
  r = Raise RerunException /\ conversations (ss w') = convs' /\
  current_conv_id (ss w') = Some t /\ messages (ss w') = [] /\
  user_id (ss w') = user_id (ss w) /\
  ls w' = saved_store (user_id (ss w)) convs' (ls w) /\ rand_pos w' = S (rand_pos w).
Proof.
  destruct w as [[uid cs cur ms au ak ins mdl] l rd rp nt ps u sc].
  unfold new_conversation_button, drawn_token. cbn -[save_conversations].
  rewrite Nat.add_0_r.
  unfold mbind, M_bind, uuid4, get_ss, set_conversations, set_current_conv_id, set_messages,
    modify_ss, experimental_rerun, raise.
  cbn -[save_conversations]. rewrite save_conversations_run. cbn.
  by split_and!.
Qed.

(** ** Beyond the claims: the settings page *)

Definition cleared_session (cid : pystr) (s : session) : session :=
  Session (user_id s) (update_first cid (set_conv_messages []) (conversations s))
    (current_conv_id s) [] (authenticated s) (api_key s) (instructions s) (model s).

(** X9: a session whose model is not one of [MODELS] makes the settings
    page raise [ValueError] before anything is changed, whatever the user
    does. Otherwise, without the clear button, the page sets the model to
    the one picked (the current one while the selector is untouched) and
    shows a success message only when it differs from the current one;
    nothing else changes. *)
Theorem settings_page_model w choice :
  (model (ss w) ∉ MODELS -> forall b, settings_page choice b w = (Raise ValueError, w)) /\
  (model (ss w) ∈ MODELS ->
   let m := default (model (ss w)) choice in
   settings_page choice false w =
   (Ok tt,
    if bool_decide (m = model (ss w)) then w
    else World (Session (user_id (ss w)) (conversations (ss w)) (current_conv_id (ss w))
                  (messages (ss w)) (authenticated (ss w)) (api_key (ss w))
                  (instructions (ss w)) m)
               (ls w) (rand w) (rand_pos w) (net w) (posts w)
               (ui w ++ [USuccess ("✅ Switched to " ++ ascii_str m)]) (secrets w))).
Proof.
  unfold settings_page, list_index. split.
  - intros Hn b. rewrite bind_get_ss. cbv beta. rewrite index_of_not_elem by done. reflexivity.
  - intros Hin. rewrite bind_get_ss. cbv beta. destruct (index_of_elem _ _ Hin) as (i & Hi & Hil). rewrite Hi, bind_ret.
    destruct choice as [m|]; cbn [selectbox default]; [|rewrite Hil].
    + case_bool_decide as Hm.
      * rewrite bool_decide_eq_false_2 by done.
        unfold set_model, mbind, M_bind, modify_ss, emit, mret, M_ret. cbn. reflexivity.
      * subst. rewrite bool_decide_eq_true_2 by done. reflexivity.
    + rewrite bool_decide_eq_false_2 by tauto. rewrite bool_decide_eq_true_2 by done.
      reflexivity.
Qed.

(** X10: with a valid model and an untouched selector, the [Clear Current
    Conversation] button empties the messages of the first conversation
    whose id is the current id [cid], and no other, empties the session
    messages, saves the list for the user and shows a success message.
    When [cid] references no conversation it raises [StopIteration] and
    changes nothing. *)
Theorem settings_page_clear w cid :
  model (ss w) ∈ MODELS -> current_conv_id (ss w) = Some cid ->
  (has_conv cid (conversations (ss w)) ->
   let s' := cleared_session cid (ss w) in
   settings_page None true w =
   (Ok tt, World s' (saved_store (user_id s') (conversations s') (ls w)) (rand w) (rand_pos w)
                 (net w) (posts w) (ui w ++ [USuccess "✅ Cleared chat"]) (secrets w))) /\
  (~ has_conv cid (conversations (ss w)) -> settings_page None true w = (Raise StopIteration, w)).
Proof.
  intros Hin Hcur.
  assert (Hsel : settings_page None true w = clear_current_conversation w).
  { unfold settings_page, list_index. rewrite !bind_get_ss. cbv beta.
    destruct (index_of_elem _ _ Hin) as (i & Hi & Hil). rewrite Hi, bind_ret.
    cbn [selectbox]. rewrite Hil. rewrite bool_decide_eq_false_2 by tauto.
    rewrite bind_ret. reflexivity. }
  rewrite Hsel. unfold clear_current_conversation.
  rewrite bind_get_ss, (bind_next_current_conv _ _ _ cid) by done. split.
  - intros [c Hc]%find_conv_has. rewrite Hc.
    rewrite (find_conv_id _ _ _ Hc).
    unfold set_conversations, set_messages.
    rewrite !bind_modify_ss, bind_get_ss, bind_unfold, save_conversations_run.
    destruct w as [[uid cs cur ms au ak ins mdl] l rd rp nt ps u sc]; cbn in *. subst. done.
  - intros Hnot. destruct (find_conv cid _) eqn:Hc; [|done].
    exfalso. apply Hnot, find_conv_has. eauto.
Qed.

(** ** Beyond the claims: the instructions manager *)

Ltac run_p :=
  unfold mbind, PM_bind, mret, PM_ret, get_page, modify_page, set_custom_instructions,
    set_current_instruction_name, set_page_instructions, set_instruction_edit_mode,
    page_success, page_rerun, page_raise, dict_getitem, page_index;
  cbn [custom_instructions current_instruction_name page_instructions
       instruction_edit_mode page_ui].

(** The state the page keeps: distinct names, a "Default" entry with the
    text [D], and a current name that is one of the names. *)
Definition page_wf (D : pystr) (p : page_state) : Prop :=
  NoDup (dict_keys (custom_instructions p)) /\
  dict_get DEFAULT_NAME (custom_instructions p) = Some D /\
  current_instruction_name p ∈ dict_keys (custom_instructions p).

Lemma dict_set_wf D k v d :
  NoDup (dict_keys d) -> dict_get DEFAULT_NAME d = Some D -> k <> DEFAULT_NAME ->
  NoDup (dict_keys (dict_set k v d)) /\ dict_get DEFAULT_NAME (dict_set k v d) = Some D /\
  k ∈ dict_keys (dict_set k v d).
Proof.
  intros Hnd HD Hk. split_and!.
  - destruct (decide (k ∈ dict_keys d)) as [Hin|Hin].
    + by rewrite dict_set_keys.
    + rewrite dict_set_new by done. unfold dict_keys. rewrite map_app. cbn.
      apply NoDup_app. split_and!; [done| |by apply NoDup_singleton].
      intros x Hx ->%list_elem_of_singleton. done.
  - by rewrite dict_get_set_ne by congruence.
  - eapply dict_get_elem. apply dict_get_set_eq.
Qed.

Lemma dict_del_wf D k d :
  NoDup (dict_keys d) -> dict_get DEFAULT_NAME d = Some D -> k <> DEFAULT_NAME ->
  NoDup (dict_keys (dict_del k d)) /\ dict_get DEFAULT_NAME (dict_del k d) = Some D /\
  DEFAULT_NAME ∈ dict_keys (dict_del k d).
Proof.
  intros Hnd HD Hk.
  assert (HD' : dict_get DEFAULT_NAME (dict_del k d) = Some D)
    by (by rewrite dict_get_del_ne by congruence).
  split_and!; [|done|by eapply dict_get_elem].
  rewrite dict_del_keys by done. by apply NoDup_filter.
Qed.

(** A fresh name added to a dict leaves every existing entry as it was. *)
Lemma dict_set_fresh_keeps k c d k' v :
  k ∉ dict_keys d -> dict_get k' d = Some v -> dict_get k' (dict_set k c d) = Some v.
Proof.
  intros Hk Hv. rewrite dict_get_set_ne; [done|].
  intros ->. apply Hk. by eapply dict_get_elem.
Qed.

(** X11: the instructions manager keeps its state well formed: when the
    names are distinct, "Default" holds the text [D] and the current name
    is one of the names (and the selector returns one of the names), a run
    of the page ends normally or by a rerun, never by an error, and leaves
    the names distinct, "Default" with the same text [D] and a current name
    that is one of the names. "Default" can be neither edited nor deleted,
    and a run of the creation form never overwrites an existing name:
    every name it started with keeps its text. *)
Theorem instructions_page_invariant D inp p :
  page_wf D p ->
  (forall v, in_select inp = Some v -> v ∈ dict_keys (custom_instructions p)) ->
  let '(r, p') := instructions_page inp p in
  (r = Ok tt \/ r = Raise RerunException) /\ page_wf D p' /\
  (instruction_edit_mode p = lit "create" ->
   forall k v, dict_get k (custom_instructions p) = Some v ->
   dict_get k (custom_instructions p') = Some v).
Proof.
  destruct p as [d cur ti mode pu]. intros (Hnd & HD & Hcur) Hsel. cbn in *.
  assert (HDk : DEFAULT_NAME ∈ dict_keys d) by (by eapply dict_get_elem).
  unfold instructions_page. run_p. case_bool_decide as Hmode.
  - unfold create_instruction. destruct (in_submit inp).
    + run_p. destruct (can_create (in_name inp) (in_content inp) d) eqn:Hc.
      * unfold can_create in Hc. apply andb_prop in Hc as [_ Hn].
        apply negb_true_iff, bool_decide_eq_false in Hn.
        assert (Hne : in_name inp <> DEFAULT_NAME) by (intros Heq; rewrite Heq in Hn; done).
        destruct (dict_set_wf D (in_name inp) (in_content inp) d) as (?&?&?); [done..|].
        cbn. split_and!; [by right|done..|].
        intros _ k v Hk. by apply dict_set_fresh_keeps.
      * cbn. destruct (in_cancel inp); cbn; (split_and!; [by auto|done..|by auto]).
    + cbn. destruct (in_cancel inp); cbn; (split_and!; [by auto|done..|by auto]).
  - unfold view_instructions. run_p.
    destruct (index_of_elem cur (dict_keys d) Hcur) as (i & Hi & Hil). rewrite Hi. cbn.
    assert (Hs : exists sel, selectbox (dict_keys d) i (in_select inp) = Some sel /\
                             sel ∈ dict_keys d).
    { destruct (in_select inp) as [v|] eqn:Hv; cbn; [exists v; auto|]. exists cur. auto. }
    destruct Hs as (sel & -> & Hsk). cbn.
    destruct (dict_elem_get sel d Hsk) as [t Ht]. rewrite Ht. cbn.
    destruct (in_new inp); cbn; [split_and!; [by right|done..|done]|].
    rewrite Ht. cbn. unfold edit_instruction. case_bool_decide as Hnd'.
    + destruct (in_save inp).
      * run_p. cbn.
        destruct (dict_set_wf D sel (default t (in_edited inp)) d) as (?&?&?); [done..|].
        split_and!; [by right|done..|done].
      * cbn. destruct (in_delete inp); run_p; cbn; [|split_and!; [by left|done..|done]].
        rewrite Ht. cbn.
        destruct (dict_del_wf D sel d) as (?&HD'&?); [done..|].
        rewrite HD'. cbn. split_and!; [by right|done..|done].
    + cbn. split_and!; [by left|done..|done].
Qed.

(** X12: on the creation form, a submitted name and content that are both
    non-empty, with a name not yet used, are appended as a new entry,
    which becomes current and active; the page returns to the list view,
    shows "✅ Saved '<name>'" and reruns. Any other submission is ignored
    without a message: without Cancel nothing changes, and Cancel only
    returns to the list view and reruns. *)
Theorem create_instruction_rule inp p :
  instruction_edit_mode p = lit "create" -> in_submit inp = true ->
  (can_create (in_name inp) (in_content inp) (custom_instructions p) = true ->
   instructions_page inp p =
   (Raise RerunException,
    PageState (custom_instructions p ++ [(in_name inp, in_content inp)]) (in_name inp)
      (in_content inp) (lit "view") (page_ui p ++ [saved_msg (in_name inp)]))) /\
  (can_create (in_name inp) (in_content inp) (custom_instructions p) = false ->
   in_cancel inp = false -> instructions_page inp p = (Ok tt, p)) /\
  (can_create (in_name inp) (in_content inp) (custom_instructions p) = false ->
   in_cancel inp = true ->
   instructions_page inp p =
   (Raise RerunException,
    PageState (custom_instructions p) (current_instruction_name p) (page_instructions p)
      (lit "view") (page_ui p))).
Proof.
  destruct p as [d cur ti mode pu]. cbn. intros -> Hsub.
  unfold instructions_page. run_p. rewrite bool_decide_eq_true_2 by done.
  unfold create_instruction. rewrite Hsub. run_p. split_and!.
  - intros Hc. rewrite Hc. cbn.
    unfold can_create in Hc. apply andb_prop in Hc as [_ Hn].
    apply negb_true_iff, bool_decide_eq_false in Hn.
    by rewrite dict_set_new.
  - intros Hc Hcan. rewrite Hc, Hcan. reflexivity.
  - intros Hc Hcan. rewrite Hc, Hcan. reflexivity.
Qed.

(** X13: in the list view, with a non-Default entry [sel] of text [old]
    picked and New Instruction not pressed, Save Changes replaces the text
    of [sel] in place by the text area's content (the names and their order
    are unchanged) while the active instructions stay [old] for the rest of
    the run; Delete removes [sel] (the other names keep their order), makes
    "Default" current with its text [D] active; both show a success message
    and rerun. *)
Theorem edit_instruction_rule D inp p sel old :
  page_wf D p -> instruction_edit_mode p <> lit "create" ->
  in_select inp = Some sel -> sel <> DEFAULT_NAME -> in_new inp = false ->
  dict_get sel (custom_instructions p) = Some old ->
  let edited := default old (in_edited inp) in
  (in_save inp = true ->
   instructions_page inp p =
   (Raise RerunException,
    PageState (dict_set sel edited (custom_instructions p)) sel old (instruction_edit_mode p)
      (page_ui p ++ [changes_saved_msg])) /\
   dict_keys (dict_set sel edited (custom_instructions p)) = dict_keys (custom_instructions p)) /\
  (in_save inp = false -> in_delete inp = true ->
   instructions_page inp p =
   (Raise RerunException,
    PageState (dict_del sel (custom_instructions p)) DEFAULT_NAME D (instruction_edit_mode p)
      (page_ui p ++ [deleted_msg])) /\
   dict_keys (dict_del sel (custom_instructions p))
     = filter (fun k => k <> sel) (dict_keys (custom_instructions p))).
Proof.
  destruct p as [d cur ti mode pu]. intros (Hnd & HD & Hcur) Hmode Hs Hne Hnew Hold. cbn in *.
  assert (Hsk : sel ∈ dict_keys d) by (by eapply dict_get_elem).
  unfold instructions_page. run_p. rewrite bool_decide_eq_false_2 by done.
  unfold view_instructions. run_p.
  destruct (index_of_elem cur (dict_keys d) Hcur) as (i & Hi & Hil). rewrite Hi. cbn.
  rewrite Hs. cbn. rewrite Hold. cbn. rewrite Hnew. cbn. rewrite Hold. cbn.
  unfold edit_instruction. rewrite bool_decide_eq_true_2 by done. split.
  - intros Hsave. rewrite Hsave. run_p. cbn. split; [done|]. by apply dict_set_keys.
  - intros Hsave Hdel. rewrite Hsave, Hdel. run_p. cbn. rewrite Hold. cbn.
    rewrite dict_get_del_ne, HD by congruence. cbn. split; [done|].
    by apply dict_del_keys.
Qed.

(** ** Beyond the claims: the sidebar as a whole *)

(** X14: with distinct titles, a current id (a non-empty string) that
    references a conversation and an untouched selector, pressing [New] in
    the sidebar does exactly what the [New] button does: the selector
    changes nothing, and the [Delete] branch is not reached because [New]
    reruns the script. *)
Theorem sidebar_new_pressed w cid del :
  current_conv_id (ss w) = Some cid -> cid <> [] ->
  has_conv cid (conversations (ss w)) ->
  NoDup (map conv_title (conversations (ss w))) ->
  sidebar_conversation_selector None true del w = new_conversation_button w.
Proof.
  intros Hcur Hne Hhas Hnd. unfold sidebar_conversation_selector.
  rewrite bind_unfold, (select_conversation_untouched_distinct_step w cid) by done.
  rewrite bind_unfold. unfold new_conversation_button, mbind, M_bind, uuid4, get_ss,
    set_conversations, set_current_conv_id, set_messages, modify_ss, experimental_rerun, raise.
  cbn -[save_conversations]. rewrite save_conversations_run. reflexivity.
Qed.

(** ** Witnesses of the properties above *)

Definition conv_a : conversation :=
  Conversation (lit "a") (lit "t") [Message (lit "user") (JStr (lit "x"))].
Definition conv_b : conversation := Conversation (lit "b") (lit "t") [].
Definition conv_c : conversation := Conversation (lit "c") (lit "u") [].

(** Two conversations titled "t", the second one current. *)
Definition w_dup : world := world0 [conv_a; conv_b] (Some (lit "b")) [].

Definition page0 : page_state :=
  PageState [(DEFAULT_NAME, lit "be brief"); (lit "mine", lit "x")] (lit "mine") (lit "x")
    (lit "view") [].

Definition input0 : page_input :=
  PageInput [] [] false false (Some (lit "mine")) false (Some (lit "y")) false true.

Lemma save_then_load_witness :
  let w := world0 [conv_a] (Some (lit "a")) [] in
  let loads := fun _ : pystr => Some JNull in
  let w1 := snd (save_conversations (lit "u1") [conv_a] w) in
  load_conversations loads (lit "u1") w1 =
  (Ok (default (JArr []) (loads (json_dumps (JArr (map conversation_json [conv_a]))))), w1).
Proof. intros w loads w1. apply save_then_load; reflexivity. Defined.

Lemma saved_conversations_ascii_witness :
  let cs := [Conversation (lit "a") [233%N] [Message (lit "user") (JStr [233%N; 10%N])]] in
  let w := world0 cs (Some (lit "a")) [] in
  kv (ls (snd (save_conversations (lit "u1") cs w))) !! conversations_key (lit "u1")
    = Some (json_dumps (JArr (map conversation_json cs))) /\
  Forall (fun n => (n < 128)%N) (json_dumps (JArr (map conversation_json cs))).
Proof. intros cs w. apply saved_conversations_ascii; [repeat constructor|reflexivity]. Defined.

Lemma get_persistent_user_id_stable_witness :
  let w := world0 [] None [] in
  get_persistent_user_id (snd (get_persistent_user_id w)) =
  (Ok (drawn_token w 0), snd (get_persistent_user_id w)).
Proof.
  intros w. apply (get_persistent_user_id_stable w (drawn_token w 0));
    [reflexivity|reflexivity|vm_compute; reflexivity].
Defined.

Lemma select_conversation_first_title_witness :
  exists w', select_conversation (Some (lit "t")) w_dup = (Ok tt, w') /\
    conversations (ss w') = conversations (ss w_dup) /\
    current_conv_id (ss w') = Some (conv_id conv_a) /\
    messages (ss w') = (if bool_decide (conv_id conv_a = lit "b") then messages (ss w_dup)
                        else conv_messages conv_a).
Proof.
  apply (select_conversation_first_title w_dup (lit "b") (lit "t") conv_a);
    vm_compute; reflexivity.
Defined.

Lemma select_conversation_untouched_witness :
  (exists c1, find_title (conv_title conv_b) (conversations (ss w_dup)) = Some c1 /\
   exists w', select_conversation None w_dup = (Ok tt, w') /\
     conversations (ss w') = conversations (ss w_dup) /\
     current_conv_id (ss w') = Some (conv_id c1) /\
     messages (ss w') = (if bool_decide (conv_id c1 = lit "b") then messages (ss w_dup)
                         else conv_messages c1)) /\
  current_conv_id (ss (snd (select_conversation None w_dup))) = Some (lit "a").
Proof.
  split.
  - apply (select_conversation_untouched w_dup (lit "b") conv_b);
      [reflexivity|discriminate|vm_compute; reflexivity].
  - vm_compute. reflexivity.
Defined.

Lemma select_conversation_untouched_distinct_witness :
  select_conversation None (world0 [conv_a; conv_c] (Some (lit "c")) [])
  = (Ok tt, world0 [conv_a; conv_c] (Some (lit "c")) []).
Proof.
  apply (select_conversation_untouched_distinct _ (lit "c")).
  - reflexivity.
  - discriminate.
  - constructor 2. constructor 1. reflexivity.
  - vm_compute. repeat constructor; set_solver.
Defined.

Lemma settings_page_clear_witness :
  let w := world0 [conv_a; conv_b] (Some (lit "a")) [] in
  let cid := lit "a" in
  (has_conv cid (conversations (ss w)) ->
   let s' := cleared_session cid (ss w) in
   settings_page None true w =
   (Ok tt, World s' (saved_store (user_id s') (conversations s') (ls w)) (rand w) (rand_pos w)
                 (net w) (posts w) (ui w ++ [USuccess "✅ Cleared chat"]) (secrets w))) /\
  (~ has_conv cid (conversations (ss w)) -> settings_page None true w = (Raise StopIteration, w)).
Proof. intros w cid. apply settings_page_clear; [by left|reflexivity]. Defined.

Lemma instructions_page_invariant_witness :
  let '(r, p') := instructions_page input0 page0 in
  (r = Ok tt \/ r = Raise RerunException) /\ page_wf (lit "be brief") p' /\
  (instruction_edit_mode page0 = lit "create" ->
   forall k v, dict_get k (custom_instructions page0) = Some v ->
   dict_get k (custom_instructions p') = Some v).
Proof.
  apply instructions_page_invariant.
  - split_and!.
    + vm_compute. repeat constructor; set_solver.
    + reflexivity.
    + right. left.
  - intros v [= <-]. right. left.
Defined.

Lemma create_instruction_rule_witness :
  let p := PageState [(DEFAULT_NAME, lit "be brief")] DEFAULT_NAME (lit "be brief")
             (lit "create") [] in
  let inp := PageInput (lit "new") (lit "text") true false None false None false false in
  (can_create (in_name inp) (in_content inp) (custom_instructions p) = true ->
   instructions_page inp p =
   (Raise RerunException,
    PageState (custom_instructions p ++ [(in_name inp, in_content inp)]) (in_name inp)
      (in_content inp) (lit "view") (page_ui p ++ [saved_msg (in_name inp)]))) /\
  (can_create (in_name inp) (in_content inp) (custom_instructions p) = false ->
   in_cancel inp = false -> instructions_page inp p = (Ok tt, p)) /\
  (can_create (in_name inp) (in_content inp) (custom_instructions p) = false ->
   in_cancel inp = true ->
   instructions_page inp p =
   (Raise RerunException,
    PageState (custom_instructions p) (current_instruction_name p) (page_instructions p)
      (lit "view") (page_ui p))).
Proof. intros p inp. apply create_instruction_rule; reflexivity. Defined.

Lemma edit_instruction_rule_witness :
  let p := page0 in let inp := input0 in let sel := lit "mine" in let old := lit "x" in
  let edited := default old (in_edited inp) in
  (in_save inp = true ->
   instructions_page inp p =
   (Raise RerunException,
    PageState (dict_set sel edited (custom_instructions p)) sel old (instruction_edit_mode p)
      (page_ui p ++ [changes_saved_msg])) /\
   dict_keys (dict_set sel edited (custom_instructions p)) = dict_keys (custom_instructions p)) /\
  (in_save inp = false -> in_delete inp = true ->
   instructions_page inp p =
   (Raise RerunException,
    PageState (dict_del sel (custom_instructions p)) DEFAULT_NAME (lit "be brief")
      (instruction_edit_mode p) (page_ui p ++ [deleted_msg])) /\
   dict_keys (dict_del sel (custom_instructions p))
     = filter (fun k => k <> sel) (dict_keys (custom_instructions p))).
Proof.
  intros p inp sel old edited.
  apply (edit_instruction_rule (lit "be brief") inp p sel old).
  - split_and!.
    + vm_compute. repeat constructor; set_solver.
    + reflexivity.
    + right. left.
  - discriminate.
  - reflexivity.
  - discriminate.
  - reflexivity.
  - reflexivity.
Defined.

Lemma sidebar_new_pressed_witness :
  sidebar_conversation_selector None true true (world0 [conv_a; conv_c] (Some (lit "c")) [])
  = new_conversation_button (world0 [conv_a; conv_c] (Some (lit "c")) []).
Proof.
  apply (sidebar_new_pressed _ (lit "c")).
  - reflexivity.
  - discriminate.
  - constructor 2. constructor 1. reflexivity.
  - vm_compute. repeat constructor; set_solver.
Defined.
